(** * Job Match AI: the chat transcript and the mock analysis of [src/index.jsx]

    A shallow embedding of the [App] component's state and handlers.

    - React state (the ten [useState] cells) is the record [State]; a state
      setter is a state transformer.
    - The two asynchronous handlers, [sendMessageToGemini] and [handleSubmit],
      are written in a small state-and-exception monad and cut at their
      [await]: the part that runs at the call, and the part that runs when
      the awaited promise settles.
    - The browser (the network, the timer, the [URL] parser, the user) is
      the environment: it chooses the events of the transition system at the
      end of the definitions. *)

From Stdlib Require Import NArith String Ascii DecimalString.
From stdpp Require Import base tactics option list.

Local Open Scope N_scope.

(** ** JavaScript strings *)

(** A JavaScript string is a sequence of UTF-16 code units. *)
Definition jsstring : Set := list N.

(** The string literals of the source are ASCII. *)
Definition lit (s : string) : jsstring := N_of_ascii <$> list_ascii_of_string s.

(** A string is falsy exactly when it is empty. *)
Definition truthy (s : jsstring) : bool :=
  match s with
  | [] => false
  | _ :: _ => true
  end.

(** A property that may be [undefined] is falsy when it is, and otherwise as
    its string. *)
Definition truthy_opt (o : option jsstring) : bool :=
  match o with
  | Some s => truthy s
  | None => false
  end.

(** [`${x}`]: a template literal prints [undefined] by name. *)
Definition to_string (o : option jsstring) : jsstring :=
  match o with
  | Some s => s
  | None => lit "undefined"
  end.

(** ECMAScript's WhiteSpace and LineTerminator code points, the ones
    [String.prototype.trim] removes: TAB, LF, VT, FF, CR, SP, NBSP, the
    Unicode space separators, LS, PS and the byte order mark. *)
Definition isWhiteSpace (c : N) : bool :=
  (9 <=? c) && (c <=? 13)
  || (c =? 32) || (c =? 160) || (c =? 5760)
  || (8192 <=? c) && (c <=? 8202)
  || (c =? 8232) || (c =? 8233) || (c =? 8239) || (c =? 8287)
  || (c =? 12288) || (c =? 65279).

Fixpoint trimStart (s : jsstring) : jsstring :=
  match s with
  | c :: s' => if isWhiteSpace c then trimStart s' else s
  | [] => []
  end.

Definition trimEnd (s : jsstring) : jsstring := reverse (trimStart (reverse s)).

(** [s.trim()] *)
Definition trim (s : jsstring) : jsstring := trimEnd (trimStart s).

(** [!s.trim()] *)
Definition isBlank (s : jsstring) : bool := negb (truthy (trim s)).

(** [String(n)] for an array index plus one: plain decimal digits. *)
Definition decimal (n : nat) : jsstring := lit (NilZero.string_of_uint (Nat.to_uint n)).

(** [parts.join(sep)] *)
Fixpoint join (sep : jsstring) (parts : list jsstring) : jsstring :=
  match parts with
  | [] => []
  | [p] => p
  | p :: rest => p ++ sep ++ join sep rest
  end.

(** The line feed of ['\n']. *)
Definition LF : jsstring := [10].

(** ** The data of the component *)

(** The two values the [role] property takes. *)
Inductive Role : Set := user | model.

(** A grounding source as the extractor builds it,
    [{ uri: attribution.web?.uri, title: attribution.web?.title }]: each
    property is a string or [undefined]. *)
Record Source : Set := { uri : option jsstring; title : option jsstring }.

(** An entry of [chatHistory]. Only the reply built from a response has a
    [sources] property; the greeting, the user's entries and the apology
    have none. *)
Record Message : Set := {
  role : Role;
  text : jsstring;
  sources : option (list Source)
}.

(** The [File] of the file input; the component reads its [name] only. *)
Record File : Set := { name : jsstring }.

(** The body of the API's answer after [response.json()], as far as the
    handler can tell bodies apart. Every property it reads may be missing (or
    null, or another falsy value), and it reads nothing else. An element of
    [groundingAttributions] may be [null], and the property itself may be a
    truthy value that is not an array: there the handler throws. A [text], a
    [uri] and a [title] that are there are strings, as the API documents
    them; a truthy value of another type in their place is not modelled. *)
Module Api.

Record Web : Set := { uri : option jsstring; title : option jsstring }.

Record Attribution : Set := { web : option Web }.

(** A truthy [groundingAttributions]: an array, each element an object or
    [null], or a value with no [map] method. *)
Inductive Attributions : Set :=
  | NotAnArray
  | Elements (elements : list (option Attribution)).

Record GroundingMetadata : Set :=
  { groundingAttributions : option Attributions }.

Record Part : Set := { text : option jsstring }.

Record Content : Set := { parts : option (list Part) }.

Record Candidate : Set := {
  content : option Content;
  groundingMetadata : option GroundingMetadata
}.

Record Result : Set := { candidates : option (list Candidate) }.

End Api.

(** What [await response.json()] gives: a rejection when the body is not
    JSON, [null] when the body is the JSON text [null], and otherwise the
    parsed body. *)
Inductive Body : Set :=
  | NotJson
  | JsonNull
  | Json (result : Api.Result).

(** The [Response] of [fetch]: its status and its body. *)
Record Response : Set := { status : N; body : Body }.

(** [response.ok]: the status is in the range 200 to 299. *)
Definition ok (r : Response) : bool := (200 <=? status r) && (status r <=? 299).

(** What [await fetch(...)] gives: a response, or a rejection when the
    network fails. *)
Inductive FetchOutcome : Set :=
  | NetworkFailure
  | Responded (response : Response).

(** One element of [payload.contents]:
    [{ role: msg.role, parts: [{ text: msg.text }] }]. *)
Record ContentItem : Set := { item_role : Role; item_parts : list jsstring }.

(** The body of the POST request. *)
Record Payload : Set := {
  contents : list ContentItem;
  tools : list jsstring;
  systemInstruction : list jsstring
}.

(** The request [fetch] is called with. *)
Record Request : Set := { url : jsstring; method : jsstring; payload : Payload }.

(** The React state of [App], one field per [useState]. *)
Record State : Set := {
  skillsText : jsstring;
  resumeFile : option File;
  recommendations : list jsstring;
  skillsUsed : jsstring;
  isLoading : bool;
  error : option jsstring;
  isChatOpen : bool;
  chatHistory : list Message;
  chatInput : jsstring;
  isChatLoading : bool
}.

(** ** Constants *)

Definition MOCK_RECOMMENDATIONS : list jsstring := [
  lit "1. Software Development Intern (Python/Database)";
  lit "2. Junior Backend Developer (SQL/MongoDB)";
  lit "3. Mid-Level Python Software Engineer";
  lit "4. Data Engineer (Database & ETL Focus)";
  lit "5. Senior Backend Engineer (Distributed Systems)";
  lit "6. Database Architect (MongoDB/SQL Optimization)"
].

Definition MOCK_SKILLS_FROM_RESUME : jsstring :=
  lit "Python, SQL, MongoDB, Database Management, CRUD application logic, Teamwork, Communication.".

Definition API_KEY : jsstring := [].

Definition API_URL : jsstring :=
  lit "https://generativelanguage.googleapis.com/v1beta/models/gemini-2.5-flash-preview-09-2025:generateContent?key="
  ++ API_KEY.

Definition systemInstructionText : jsstring :=
  lit "You are a helpful career guidance chatbot embedded in a Job Match AI application. You assist users with questions about their resume analysis, job roles, and career development. Be concise and use Google Search for up-to-date, real-time information.".

Definition greeting : Message :=
  {| role := model;
     text := lit "Hello! I'm Job Match AI's assistant. Ask me anything about career paths, job roles, or resume tips.";
     sources := None |}.

Definition fallbackText : jsstring := lit "Sorry, I couldn't get a clear response.".

Definition apologyText : jsstring :=
  lit "Sorry, I hit an error connecting to the intelligence engine. Please try again.".

(** The entry the [catch] block appends. *)
Definition apology : Message :=
  {| role := model; text := apologyText; sources := None |}.

Definition validationMessage : jsstring :=
  lit "Please enter skills or select a file to begin the analysis.".

Definition processingMessage : jsstring :=
  lit "An error occurred during the simulated analysis. Check console for details.".

(** The values of the [useState] calls. *)
Definition initialState : State :=
  {| skillsText := [];
     resumeFile := None;
     recommendations := [];
     skillsUsed := [];
     isLoading := false;
     error := None;
     isChatOpen := false;
     chatHistory := [greeting];
     chatInput := [];
     isChatLoading := false |}.

(** ** Handlers as state transformers that may throw *)

(** What the handlers can throw: [new Error(`API returned status ...`)], the
    rejection of [fetch], the rejection of [response.json()], the
    [TypeError] of [new URL(...)], and the [TypeError] of reading a property
    of [null] or calling a [map] that is not there. *)
Inductive Exn : Set :=
  | ApiStatus (code : N)
  | FetchRejected
  | JsonSyntax
  | InvalidUrl (input : jsstring)
  | TypeError.

(** A computation reads and writes the React state, and ends with a value or
    with a thrown exception; the state written before a throw stays. *)
Definition M (A : Type) : Type := State -> (Exn + A) * State.

#[global] Instance M_ret : MRet M := λ A x st, (inr x, st).

#[global] Instance M_bind : MBind M := λ A B f c st,
  match c st with
  | (inr x, st') => f x st'
  | (inl e, st') => (inl e, st')
  end.

Definition throw {A : Type} (e : Exn) : M A := λ st, (inl e, st).

(** A computation that does not touch the state. *)
Definition lift {A : Type} (r : Exn + A) : M A := λ st, (r, st).

(** The state a computation leaves. *)
Definition exec {A : Type} (c : M A) (st : State) : State := (c st).2.

(** [try { c } catch (e) { h e }] *)
Definition try_catch {A : Type} (c : M A) (h : Exn -> M A) : M A := λ st,
  match c st with
  | (inr x, st') => (inr x, st')
  | (inl e, st') => h e st'
  end.

(** [try { c } finally { f }]: [f] runs either way, and what [c] threw is
    thrown again after it. *)
Definition try_finally {A : Type} (c : M A) (f : M unit) : M A := λ st,
  match c st with
  | (r, st') =>
      match f st' with
      | (inr _, st'') => (r, st'')
      | (inl e, st'') => (inl e, st'')
      end
  end.

(** The state setters. A setter called with a value is the setter called
    with the constant function. *)
Definition setSkillsText (v : jsstring) : M unit := λ st,
  (inr (), {| skillsText := v; resumeFile := resumeFile st;
              recommendations := recommendations st; skillsUsed := skillsUsed st;
              isLoading := isLoading st; error := error st;
              isChatOpen := isChatOpen st; chatHistory := chatHistory st;
              chatInput := chatInput st; isChatLoading := isChatLoading st |}).

Definition setResumeFile (v : option File) : M unit := λ st,
  (inr (), {| skillsText := skillsText st; resumeFile := v;
              recommendations := recommendations st; skillsUsed := skillsUsed st;
              isLoading := isLoading st; error := error st;
              isChatOpen := isChatOpen st; chatHistory := chatHistory st;
              chatInput := chatInput st; isChatLoading := isChatLoading st |}).

Definition setRecommendations (v : list jsstring) : M unit := λ st,
  (inr (), {| skillsText := skillsText st; resumeFile := resumeFile st;
              recommendations := v; skillsUsed := skillsUsed st;
              isLoading := isLoading st; error := error st;
              isChatOpen := isChatOpen st; chatHistory := chatHistory st;
              chatInput := chatInput st; isChatLoading := isChatLoading st |}).

Definition setSkillsUsed (v : jsstring) : M unit := λ st,
  (inr (), {| skillsText := skillsText st; resumeFile := resumeFile st;
              recommendations := recommendations st; skillsUsed := v;
              isLoading := isLoading st; error := error st;
              isChatOpen := isChatOpen st; chatHistory := chatHistory st;
              chatInput := chatInput st; isChatLoading := isChatLoading st |}).

Definition setIsLoading (v : bool) : M unit := λ st,
  (inr (), {| skillsText := skillsText st; resumeFile := resumeFile st;
              recommendations := recommendations st; skillsUsed := skillsUsed st;
              isLoading := v; error := error st;
              isChatOpen := isChatOpen st; chatHistory := chatHistory st;
              chatInput := chatInput st; isChatLoading := isChatLoading st |}).

Definition setError (v : option jsstring) : M unit := λ st,
  (inr (), {| skillsText := skillsText st; resumeFile := resumeFile st;
              recommendations := recommendations st; skillsUsed := skillsUsed st;
              isLoading := isLoading st; error := v;
              isChatOpen := isChatOpen st; chatHistory := chatHistory st;
              chatInput := chatInput st; isChatLoading := isChatLoading st |}).

Definition setIsChatOpen (v : bool) : M unit := λ st,
  (inr (), {| skillsText := skillsText st; resumeFile := resumeFile st;
              recommendations := recommendations st; skillsUsed := skillsUsed st;
              isLoading := isLoading st; error := error st;
              isChatOpen := v; chatHistory := chatHistory st;
              chatInput := chatInput st; isChatLoading := isChatLoading st |}).

Definition setChatHistory (f : list Message -> list Message) : M unit := λ st,
  (inr (), {| skillsText := skillsText st; resumeFile := resumeFile st;
              recommendations := recommendations st; skillsUsed := skillsUsed st;
              isLoading := isLoading st; error := error st;
              isChatOpen := isChatOpen st; chatHistory := f (chatHistory st);
              chatInput := chatInput st; isChatLoading := isChatLoading st |}).

Definition setChatInput (v : jsstring) : M unit := λ st,
  (inr (), {| skillsText := skillsText st; resumeFile := resumeFile st;
              recommendations := recommendations st; skillsUsed := skillsUsed st;
              isLoading := isLoading st; error := error st;
              isChatOpen := isChatOpen st; chatHistory := chatHistory st;
              chatInput := v; isChatLoading := isChatLoading st |}).

Definition setIsChatLoading (v : bool) : M unit := λ st,
  (inr (), {| skillsText := skillsText st; resumeFile := resumeFile st;
              recommendations := recommendations st; skillsUsed := skillsUsed st;
              isLoading := isLoading st; error := error st;
              isChatOpen := isChatOpen st; chatHistory := chatHistory st;
              chatInput := chatInput st; isChatLoading := v |}).

(** [console.error(...)] writes no state. *)
Definition console_error : M unit := mret ().

(** ** The platform's URL parser *)

(** [hostname input] is [new URL(input).hostname], and [None] when the
    constructor throws. *)
Class UrlParser : Type := hostname : jsstring -> option jsstring.

(** ** The chat: [sendMessageToGemini] *)

(** [newChatHistory.map(msg => ({ role: msg.role, parts: [{ text: msg.text }] }))]
    with the tools and the system instruction. *)
Definition payloadOf (history : list Message) : Payload :=
  {| contents :=
       (λ msg, {| item_role := role msg; item_parts := [text msg] |}) <$> history;
     tools := [lit "google_search"];
     systemInstruction := [systemInstructionText] |}.

Definition requestOf (history : list Message) : Request :=
  {| url := API_URL; method := lit "POST"; payload := payloadOf history |}.

(** The handler from its call to its first [await]. The callback closes
    over the [chatHistory] of the render it was made in, which is the first
    argument here; the result is the request handed to [fetch], if the
    handler got that far. *)
Definition sendMessageToGemini (chatHistory : list Message) (message : jsstring)
    : M (option Request) :=
  if isBlank message then mret None
  else
    let newChatHistory :=
      chatHistory ++ [{| role := user; text := message; sources := None |}] in
    setChatHistory (λ _, newChatHistory) ;;
    setChatInput [] ;;
    setIsChatLoading true ;;
    mret (Some (requestOf newChatHistory)).

Definition awaitFetch (o : FetchOutcome) : M Response :=
  match o with
  | NetworkFailure => throw FetchRejected
  | Responded response => mret response
  end.

(** [await response.json()]: [None] is [null]. *)
Definition awaitJson (response : Response) : M (option Api.Result) :=
  match body response with
  | NotJson => throw JsonSyntax
  | JsonNull => mret None
  | Json result => mret (Some result)
  end.

(** [result.candidates] throws when [result] is [null]. *)
Definition readResult (parsed : option Api.Result) : M Api.Result :=
  match parsed with
  | Some result => mret result
  | None => throw TypeError
  end.

(** [result.candidates?.[0]] *)
Definition firstCandidate (result : Api.Result) : option Api.Candidate :=
  candidates ← Api.candidates result;
  candidates !! 0%nat.

(** [candidate.content?.parts?.[0]?.text] *)
Definition candidateText (candidate : Api.Candidate) : option jsstring :=
  content ← Api.content candidate;
  parts ← Api.parts content;
  part ← parts !! 0%nat;
  Api.text part.

(** [attribution => ({ uri: attribution.web?.uri, title: attribution.web?.title })] *)
Definition toSource (attribution : Api.Attribution) : Source :=
  {| uri := Api.web attribution ≫= Api.uri;
     title := Api.web attribution ≫= Api.title |}.

(** [source => source.uri && source.title] *)
Definition keepSource (source : Source) : bool :=
  truthy_opt (uri source) && truthy_opt (title source).

(** [groundingAttributions.map(attribution => ...)]: at an element that is
    [null], [attribution.web] throws. *)
Fixpoint mapToSource (elements : list (option Api.Attribution))
    : Exn + list Source :=
  match elements with
  | [] => inr []
  | None :: _ => inl TypeError
  | Some attribution :: rest =>
      match mapToSource rest with
      | inl e => inl e
      | inr ss => inr (toSource attribution :: ss)
      end
  end.

(** The sources of a candidate that has text:
    [groundingMetadata && groundingMetadata.groundingAttributions] guards
    the [map], which is not there on a value that is not an array. *)
Definition groundingSources (candidate : Api.Candidate) : Exn + list Source :=
  match Api.groundingMetadata candidate ≫= Api.groundingAttributions with
  | Some (Api.Elements elements) =>
      match mapToSource elements with
      | inl e => inl e
      | inr ss => inr (List.filter keepSource ss)
      end
  | Some Api.NotAnArray => inl TypeError
  | None => inr []
  end.

(** [responseText] and [sources] after the [if (candidate && ...text)], or
    what the block throws. *)
Definition extractReply (result : Api.Result) : Exn + jsstring * list Source :=
  match firstCandidate result with
  | Some candidate =>
      match candidateText candidate with
      | Some t =>
          if truthy t then
            match groundingSources candidate with
            | inl e => inl e
            | inr ss => inr (t, ss)
            end
          else inr (fallbackText, [])
      | None => inr (fallbackText, [])
      end
  | None => inr (fallbackText, [])
  end.

(** [`[${i + 1}] ${s.title} (${new URL(s.uri).hostname})`] *)
Definition citationLine `{UrlParser} (s : Source) (i : nat) : Exn + jsstring :=
  match hostname (to_string (uri s)) with
  | Some host =>
      inr (lit "[" ++ decimal (i + 1) ++ lit "] " ++ to_string (title s)
           ++ lit " (" ++ host ++ lit ")")
  | None => inl (InvalidUrl (to_string (uri s)))
  end.

(** [sources.map((s, i) => ...)] from index [i] on; the first throw ends it. *)
Fixpoint citationLines `{UrlParser} (i : nat) (ss : list Source)
    : Exn + list jsstring :=
  match ss with
  | [] => inr []
  | s :: rest =>
      match citationLine s i with
      | inl e => inl e
      | inr line =>
          match citationLines (S i) rest with
          | inl e => inl e
          | inr lines => inr (line :: lines)
          end
      end
  end.

(** [fullResponse] *)
Definition formatResponse `{UrlParser} (responseText : jsstring)
    (sources : list Source) : Exn + jsstring :=
  if (0 <? length sources)%nat then
    match citationLines 0 sources with
    | inl e => inl e
    | inr lines =>
        inr (responseText ++ (LF ++ LF ++ lit "**Sources:**" ++ LF) ++ join LF lines)
    end
  else inr responseText.

(** The [try] block from the first [await] on. *)
Definition handleResponse `{UrlParser} (o : FetchOutcome) : M unit :=
  response ← awaitFetch o;
  (if negb (ok response) then throw (ApiStatus (status response)) else mret ()) ;;
  parsed ← awaitJson response;
  result ← readResult parsed;
  '(responseText, sources) ← lift (extractReply result);
  fullResponse ← lift (formatResponse responseText sources);
  setChatHistory (λ prev,
    prev ++ [{| role := model; text := fullResponse; sources := Some sources |}]).

(** The handler from the first [await] to its end. Nothing between the two
    [await]s reads or writes the state, so both are settled in one step. *)
Definition sendMessageToGemini_settled `{UrlParser} (o : FetchOutcome) : M unit :=
  try_finally
    (try_catch (handleResponse o)
       (λ error, console_error ;; setChatHistory (λ prev, prev ++ [apology])))
    (setIsChatLoading false).

(** The entry the settled handler appends: the reply when the [try] block
    runs to its end, the apology when anything in it throws. *)
Definition replyTurn `{UrlParser} (o : FetchOutcome) : Message :=
  match o with
  | NetworkFailure => apology
  | Responded response =>
      if ok response then
        match body response with
        | NotJson => apology
        | JsonNull => apology
        | Json result =>
            match extractReply result with
            | inr (responseText, ss) =>
                match formatResponse responseText ss with
                | inr fullResponse =>
                    {| role := model; text := fullResponse; sources := Some ss |}
                | inl _ => apology
                end
            | inl _ => apology
            end
        end
      else apology
  end.

(** The sources the message area lists under an entry:
    [message.sources && message.sources.length > 0 && ... message.sources.map(...)]. *)
Definition shownSources (message : Message) : list Source :=
  match sources message with
  | Some ss => if (0 <? length ss)%nat then ss else []
  | None => []
  end.

(** ** The mock analysis: [handleSubmit] *)

(** The timer of [setTimeout] and what the rest of the handler closes over. *)
Record Timer : Set := { delay : N; capturedSkillsText : jsstring }.

(** The handler from its call to its [await]. The callback closes over the
    [skillsText] and the [resumeFile] of the render it was made in, which
    are the arguments here; the result is the timer it started, if any. *)
Definition handleSubmit (skillsText : jsstring) (resumeFile : option File)
    : M (option Timer) :=
  setError None ;;
  setRecommendations [] ;;
  setSkillsUsed [] ;;
  if isBlank skillsText && negb (bool_decide (is_Some resumeFile)) then
    setError (Some validationMessage) ;;
    mret None
  else
    setIsLoading true ;;
    mret (Some {| delay := 2000; capturedSkillsText := skillsText |}).

(** [combinedSkills] *)
Definition combinedSkills (skillsText : jsstring) : jsstring :=
  if truthy (trim skillsText) then
    lit "[From Textbox: " ++ trim skillsText ++ lit "] + [From Resume: "
    ++ MOCK_SKILLS_FROM_RESUME ++ lit "]"
  else MOCK_SKILLS_FROM_RESUME.

(** The handler from the end of the delay on, with the [skillsText] it
    closed over at the call. *)
Definition handleSubmit_settled (skillsText : jsstring) : M unit :=
  try_finally
    (try_catch
       (setRecommendations MOCK_RECOMMENDATIONS ;;
        setSkillsUsed (combinedSkills skillsText))
       (λ err, console_error ;; setError (Some processingMessage)))
    (setIsLoading false).

(** ** The page as a transition system *)

(** The React state together with what the browser still owes the page: the
    requests [fetch] has not settled and the timers that have not fired. *)
Record World : Set := {
  store : State;
  fetches : list Request;
  timers : list Timer
}.

Definition initialWorld : World :=
  {| store := initialState; fetches := []; timers := [] |}.

(** What can happen to the page. The first group is the user acting on a
    control of the page, the second is the browser settling what it owes,
    and [CallSubmit] is [sendMessageToGemini] called for itself, with no
    control in between. *)
Inductive Event : Set :=
  | TypeSkills (value : jsstring)
  | ChooseFile (file : option File)
  | RemoveFile
  | SubmitForm
  | OpenChat
  | CloseChat
  | TypeChat (value : jsstring)
  | SubmitChat
  | TimerFires (i : nat)
  | FetchSettles (i : nat) (o : FetchOutcome)
  | CallSubmit (message : jsstring).

Definition withStore (w : World) (st : State) : World :=
  {| store := st; fetches := fetches w; timers := timers w |}.

(** A call of [sendMessageToGemini] from the current render. *)
Definition callSubmit (message : jsstring) (w : World) : World :=
  match sendMessageToGemini (chatHistory (store w)) message (store w) with
  | (inr (Some request), st) =>
      {| store := st; fetches := fetches w ++ [request]; timers := timers w |}
  | (_, st) => withStore w st
  end.

(** A call of [sendMessageToGemini] through a callback kept from a render
    whose transcript was [history], which need not be the current one. *)
Definition callSubmitFrom (history : list Message) (message : jsstring)
    (w : World) : World :=
  match sendMessageToGemini history message (store w) with
  | (inr (Some request), st) =>
      {| store := st; fetches := fetches w ++ [request]; timers := timers w |}
  | (_, st) => withStore w st
  end.

(** A call of [handleSubmit] from the current render. *)
Definition callAnalyze (w : World) : World :=
  match handleSubmit (skillsText (store w)) (resumeFile (store w)) (store w) with
  | (inr (Some timer), st) =>
      {| store := st; fetches := fetches w; timers := timers w ++ [timer] |}
  | (_, st) => withStore w st
  end.

(** Every handler runs from a render of the current state, as the handlers
    the page hands its events to do. A call through a callback kept from an
    earlier render is no event: it is [callSubmitFrom]. *)
Definition step `{UrlParser} (e : Event) (w : World) : World :=
  match e with
  | TypeSkills value => withStore w (exec (setSkillsText value) (store w))
  | ChooseFile file => withStore w (exec (setResumeFile file) (store w))
  | RemoveFile => withStore w (exec (setResumeFile None) (store w))
  | SubmitForm => callAnalyze w
  | OpenChat => withStore w (exec (setIsChatOpen true) (store w))
  | CloseChat => withStore w (exec (setIsChatOpen false) (store w))
  | TypeChat value => withStore w (exec (setChatInput value) (store w))
  | SubmitChat => callSubmit (chatInput (store w)) w
  | TimerFires i =>
      match timers w !! i with
      | Some timer =>
          {| store := exec (handleSubmit_settled (capturedSkillsText timer)) (store w);
             fetches := fetches w;
             timers := delete i (timers w) |}
      | None => w
      end
  | FetchSettles i o =>
      match fetches w !! i with
      | Some _ =>
          {| store := exec (sendMessageToGemini_settled o) (store w);
             fetches := delete i (fetches w);
             timers := timers w |}
      | None => w
      end
  | CallSubmit message => callSubmit message w
  end.

(** What the page lets happen: a control fires only while it is rendered and
    not [disabled], the browser settles only what is outstanding, and no
    control calls [sendMessageToGemini] with a message of its own. *)
Definition offered (e : Event) (w : World) : bool :=
  let st := store w in
  match e with
  | TypeSkills _ => negb (isLoading st)
  | ChooseFile _ => negb (isLoading st)
  | RemoveFile => bool_decide (is_Some (resumeFile st))
  | SubmitForm => negb (isLoading st)
  | OpenChat => negb (isChatOpen st)
  | CloseChat => isChatOpen st
  | TypeChat _ => isChatOpen st && negb (isChatLoading st)
  | SubmitChat => isChatOpen st && negb (isChatLoading st || isBlank (chatInput st))
  | TimerFires i => bool_decide (i < length (timers w))%nat
  | FetchSettles i _ => bool_decide (i < length (fetches w))%nat
  | CallSubmit _ => false
  end.

(** A run of events from a world, oldest event first. *)
Definition run `{UrlParser} (es : list Event) (w : World) : World :=
  foldl (λ w e, step e w) w es.

(** The worlds a session reaches through the page alone. *)
Inductive reachable `{UrlParser} : World -> Prop :=
  | reachable_initial : reachable initialWorld
  | reachable_step e w : reachable w -> offered e w = true -> reachable (step e w).

(** The states a session goes through, the latest first, whatever happens:
    each is a render of the page, an event is handled from the latest one,
    and a callback kept from any of them may be called later. *)
Inductive session `{UrlParser} : list World -> Prop :=
  | session_initial : session [initialWorld]
  | session_event e w ws : session (w :: ws) -> session (step e w :: w :: ws)
  | session_kept_call w0 message w ws :
      session (w :: ws) ->
      w0 ∈ w :: ws ->
      session (callSubmitFrom (chatHistory (store w0)) message w :: w :: ws).

(** One whole exchange: the call, then its own request settling with [o]. *)
Definition exchange `{UrlParser} (message : jsstring) (o : FetchOutcome)
    (w : World) : World :=
  step (FetchSettles (length (fetches w)) o) (step (CallSubmit message) w).

(** ** A stand-in for the URL parser, for the examples *)

(** The examples below need some parser. This one accepts an [https://]
    followed by a non-empty host of lower-case letters and dots, up to the
    first slash or the end, and gives that host; it refuses everything else.
    The addresses of the examples are of that form, or have no scheme at
    all, which the platform's parser refuses too. *)
Definition isHostChar (c : N) : bool :=
  (97 <=? c) && (c <=? 122) || (c =? 46).

Fixpoint hostPrefix (s : jsstring) : option jsstring :=
  match s with
  | [] => Some []
  | c :: s' =>
      if c =? 47 then Some []
      else if isHostChar c then cons c <$> hostPrefix s'
      else None
  end.

Definition exampleHostname (input : jsstring) : option jsstring :=
  if bool_decide (take 8 input = lit "https://") then
    match hostPrefix (drop 8 input) with
    | Some (c :: host) => Some (c :: host)
    | _ => None
    end
  else None.

Definition exampleParser : UrlParser := exampleHostname.

(** ** Notions the statements use *)

(** The state after the handler has appended [m] and reset the flag. *)
Definition answered (m : Message) (st : State) : State :=
  exec (setChatHistory (λ prev, prev ++ [m]) ;; setIsChatLoading false) st.

(** A request that did not come back as a readable 2xx answer. *)
Definition failedRequest (o : FetchOutcome) : Prop :=
  match o with
  | NetworkFailure => True
  | Responded response => ok response = false ∨ body response = NotJson
  end.

(** The block the handler appends after the reply text: a blank line, the
    header line, and the citation lines. *)
Definition citationBlock (lines : list jsstring) : jsstring :=
  LF ++ LF ++ lit "**Sources:**" ++ LF ++ join LF lines.

(** The rule in the specification's words: an attribution gives a source
    pair when both its [uri] and its [title] are there and not empty. *)
Definition citationOf (attribution : Api.Attribution) : option Source :=
  web ← Api.web attribution;
  u ← Api.uri web;
  t ← Api.title web;
  if truthy u && truthy t then Some {| uri := Some u; title := Some t |} else None.

(** The candidate's attributions are [attributions], each an object: the
    list is missing (and there are none), or it is an array of them. *)
Definition attributionsOf (candidate : Api.Candidate)
    (attributions : list Api.Attribution) : Prop :=
  match Api.groundingMetadata candidate ≫= Api.groundingAttributions with
  | None => attributions = []
  | Some (Api.Elements elements) => elements = Some <$> attributions
  | Some Api.NotAnArray => False
  end.

(** The [map] over the candidate's attributions cannot be done: the value
    is not an array, or one of its elements is [null]. *)
Definition attributionsUnreadable (candidate : Api.Candidate) : Prop :=
  match Api.groundingMetadata candidate ≫= Api.groundingAttributions with
  | None => False
  | Some (Api.Elements elements) => None ∈ elements
  | Some Api.NotAnArray => True
  end.

(** The [try] block runs to its end. *)
Definition succeeds `{UrlParser} (o : FetchOutcome) : Prop :=
  ∀ st, (handleResponse o st).1 = inr ().

(** Exchanges one after the other, each settled before the next call. *)
Definition exchanges `{UrlParser} (xs : list (jsstring * FetchOutcome))
    (w : World) : World :=
  foldl (λ w x, exchange x.1 x.2 w) w xs.

(** Through the page, the pending flag counts the requests in flight. *)
Definition flagCountsFetches (w : World) : Prop :=
  length (fetches w) = if isChatLoading (store w) then 1%nat else 0%nat.

(** The event is a call of [sendMessageToGemini] that gets past its blank
    test. *)
Definition getsPastBlankTest (e : Event) (w : World) : bool :=
  match e with
  | CallSubmit message => negb (isBlank message)
  | SubmitChat => negb (isBlank (chatInput (store w)))
  | _ => false
  end.

(** How many events of a run from [w] are such calls. *)
Fixpoint callsMade `{UrlParser} (es : list Event) (w : World) : nat :=
  match es with
  | [] => 0
  | e :: es' => (if getsPastBlankTest e w then 1 else 0) + callsMade es' (step e w)
  end.

(** ** Data for the examples *)

(** Example answers of the API. *)
Definition exampleAttribution (u t : string) : Api.Attribution :=
  {| Api.web := Some {| Api.uri := Some (lit u); Api.title := Some (lit t) |} |}.

Definition exampleResult (t : option jsstring) (attributions : list Api.Attribution)
    : Api.Result :=
  {| Api.candidates := Some [
       {| Api.content := Some {| Api.parts := Some [{| Api.text := t |}] |};
          Api.groundingMetadata :=
            Some {| Api.groundingAttributions :=
                      Some (Api.Elements (Some <$> attributions)) |} |} ] |}.

Definition okResponse (result : Api.Result) : Response :=
  {| status := 200; body := Json result |}.

Definition brokenResult : Api.Result :=
  exampleResult (Some (lit "Hello"))
    [exampleAttribution "https://example.com/a" "Example";
     exampleAttribution "not a url" "Broken"].

Definition citedResult : Api.Result :=
  exampleResult (Some (lit "Hello"))
    [exampleAttribution "https://example.com/a" "Example";
     exampleAttribution "" "No address";
     exampleAttribution "https://rocq.example/docs" "Docs"].

(** Reply text, one complete attribution and a [null] beside it. *)
Definition nullElementResult : Api.Result :=
  {| Api.candidates := Some [
       {| Api.content := Some {| Api.parts := Some [{| Api.text := Some (lit "Hello") |}] |};
          Api.groundingMetadata :=
            Some {| Api.groundingAttributions :=
                      Some (Api.Elements
                              [Some (exampleAttribution "https://example.com/a" "Example");
                               None]) |} |} ] |}.

(** Reply text, and attributions that are not an array. *)
Definition notAnArrayResult : Api.Result :=
  {| Api.candidates := Some [
       {| Api.content := Some {| Api.parts := Some [{| Api.text := Some (lit "Hello") |}] |};
          Api.groundingMetadata :=
            Some {| Api.groundingAttributions := Some Api.NotAnArray |} |} ] |}.

Definition exampleExchanges : list (jsstring * FetchOutcome) :=
  [(lit "Which roles fit me?", Responded (okResponse citedResult));
   (lit "Thanks", Responded (okResponse (exampleResult (Some (lit "Welcome")) [])))].

Definition examplePageSession : list Event :=
  [OpenChat; TypeChat (lit "Which roles fit me?"); SubmitChat].

(** ** What the page shows of the analysis *)

(** [s.split(sep)] for a separator of one code unit: the pieces between the
    separators, one piece more than there are separators. *)
Fixpoint split (sep : N) (s : jsstring) : list jsstring :=
  match s with
  | [] => [[]]
  | c :: s' =>
      if c =? sep then [] :: split sep s'
      else
        match split sep s' with
        | piece :: pieces => (c :: piece) :: pieces
        | [] => [[c]]
        end
  end.

(** [s.indexOf(c)] for one code unit: the first position of it, or [-1]. *)
Fixpoint indexOf (c : N) (s : jsstring) : Z :=
  match s with
  | [] => (-1)%Z
  | x :: s' =>
      if x =? c then 0%Z
      else
        let i := indexOf c s' in
        if (i <? 0)%Z then (-1)%Z else (i + 1)%Z
  end.

(** [s.substring(start)]: a negative start counts as 0, one past the end as
    the end. *)
Definition substring (start : Z) (s : jsstring) : jsstring :=
  drop (Z.to_nat (Z.max 0 start)) s.

(** The full stop of ['.']. *)
Definition DOT : N := 46.

(** The number in the round badge of a recommendation: [role.split('.')[0]]. *)
Definition roleBadge (role : jsstring) : jsstring :=
  default [] (split DOT role !! 0%nat).

(** The text beside the badge: [role.substring(role.indexOf('.') + 2)]. *)
Definition roleLabel (role : jsstring) : jsstring :=
  substring (indexOf DOT role + 2) role.

(** The error box is rendered: [error && (...)]. *)
Definition errorShown (st : State) : bool := truthy_opt (error st).

(** The results, with the summary under them, are rendered:
    [recommendations.length > 0 && (...)]. *)
Definition resultsShown (st : State) : bool := (0 <? length (recommendations st))%nat.

(** The name under the file button:
    [resumeFile ? resumeFile.name : 'No file selected.']. *)
Definition fileName (st : State) : jsstring :=
  match resumeFile st with
  | Some file => name file
  | None => lit "No file selected."
  end.

(** The text on the file button:
    [resumeFile ? 'File Selected' : 'Click to Select File']. *)
Definition fileCtaText (st : State) : jsstring :=
  match resumeFile st with
  | Some _ => lit "File Selected"
  | None => lit "Click to Select File"
  end.

(** ** Notions the further statements use *)

(** A request as the page sends them: a POST to the API with the search tool
    and the system instruction, whose contents start with the greeting as an
    entry of the model and end with an entry of the user that is not
    blank. *)
Definition wellFormedRequest (request : Request) : Prop :=
  url request = API_URL
  ∧ method request = lit "POST"
  ∧ tools (payload request) = [lit "google_search"]
  ∧ systemInstruction (payload request) = [systemInstructionText]
  ∧ ∃ between message,
      contents (payload request) =
        {| item_role := model; item_parts := [text greeting] |}
        :: between ++ [{| item_role := user; item_parts := [message] |}]
      ∧ isBlank message = false.


(** The roles of a transcript take turns, from [first] on. *)
Fixpoint alternating (first : Role) (history : list Message) : bool :=
  match history with
  | [] => true
  | m :: rest =>
      match first, role m with
      | model, model => alternating user rest
      | user, user => alternating model rest
      | _, _ => false
      end
  end.

(** An entry with something to read in its bubble: a user's entry has a text
    that is not blank and no sources; an entry of the model has a text that
    is not empty, and each source it carries has an address and a title,
    both not empty. *)
Definition readable (m : Message) : Prop :=
  match role m with
  | user => isBlank (text m) = false ∧ sources m = None
  | model =>
      text m ≠ []
      ∧ ∀ ss s, sources m = Some ss -> s ∈ ss ->
          ∃ u t, uri s = Some u ∧ title s = Some t ∧ u ≠ [] ∧ t ≠ []
  end.

(** What an event is about: the analysis form, the chat window being open,
    or the conversation in it. *)
Inductive Concern : Set := Analysis | Window | Conversation.

Definition concern (e : Event) : Concern :=
  match e with
  | TypeSkills _ | ChooseFile _ | RemoveFile | SubmitForm | TimerFires _ => Analysis
  | OpenChat | CloseChat => Window
  | TypeChat _ | SubmitChat | FetchSettles _ _ | CallSubmit _ => Conversation
  end.

(** The analysis as the page shows it: while loading, one timer that holds
    the text of the box and nothing shown; otherwise no timer, and either
    nothing shown but perhaps the validation message, or the mock
    recommendations with a summary and no error. *)
Definition analysisSettled (w : World) : Prop :=
  let st := store w in
  if isLoading st then
    timers w = [{| delay := 2000; capturedSkillsText := skillsText st |}]
    ∧ recommendations st = [] ∧ skillsUsed st = [] ∧ error st = None
  else
    timers w = []
    ∧ ((recommendations st = [] ∧ skillsUsed st = []
        ∧ (error st = None ∨ error st = Some validationMessage))
       ∨ (recommendations st = MOCK_RECOMMENDATIONS ∧ error st = None
          ∧ ∃ t, skillsUsed st = combinedSkills t)).

(** The conversation as the page keeps it: the roles take turns from the
    greeting on; while a reply is pending the last entry is the user's, the
    input is empty and the one request in flight carries the transcript as
    it is; otherwise the last entry is the model's and nothing is in
    flight. *)
Definition conversationSettled (w : World) : Prop :=
  let st := store w in
  alternating model (chatHistory st) = true
  ∧ if isChatLoading st then
      role <$> last (chatHistory st) = Some user
      ∧ chatInput st = []
      ∧ fetches w = [requestOf (chatHistory st)]
    else
      role <$> last (chatHistory st) = Some model
      ∧ fetches w = [].

Definition exampleFormSession : list Event :=
  [TypeSkills (lit "Python, SQL"); SubmitForm].

(** * Properties *)

(** ** Blank strings *)

Lemma trimStart_nil_iff (s : jsstring) :
  trimStart s = [] <-> forallb isWhiteSpace s = true.
Proof.
  induction s as [|c s IH]; simpl; [done|].
  destruct (isWhiteSpace c); simpl; [exact IH|].
  split; intros ?; discriminate.
Qed.

Lemma forallb_reverse (f : N -> bool) (s : jsstring) :
  forallb f (reverse s) = forallb f s.
Proof.
  induction s as [|c s IH]; [done|].
  rewrite reverse_cons, forallb_app, IH. simpl.
  destruct (f c), (forallb f s); reflexivity.
Qed.

Lemma trimStart_forallb (s : jsstring) :
  forallb isWhiteSpace (trimStart s) = forallb isWhiteSpace s.
Proof.
  induction s as [|c s IH]; simpl; [done|].
  destruct (isWhiteSpace c) eqn:Hc; simpl; [exact IH|].
  by rewrite Hc.
Qed.

(** A string is blank exactly when every code unit of it is white space. *)
Lemma isBlank_forallb (s : jsstring) : isBlank s = forallb isWhiteSpace s.
Proof.
  unfold isBlank, trim, trimEnd.
  destruct (forallb isWhiteSpace s) eqn:Hs.
  - apply trimStart_nil_iff in Hs. rewrite Hs. reflexivity.
  - destruct (reverse (trimStart (reverse (trimStart s)))) as [|c r] eqn:Hr;
      [|reflexivity].
    exfalso.
    apply (f_equal reverse) in Hr. rewrite reverse_involutive in Hr.
    apply trimStart_nil_iff in Hr.
    rewrite forallb_reverse, trimStart_forallb in Hr. congruence.
Qed.

Lemma isBlank_true_iff (s : jsstring) :
  isBlank s = true <-> Forall (λ c, isWhiteSpace c = true) s.
Proof.
  rewrite isBlank_forallb. induction s as [|c s IH]; simpl.
  - split; [constructor|reflexivity].
  - rewrite Forall_cons, <- IH. destruct (isWhiteSpace c); simpl.
    + split; [by split|by intros [_ ?]].
    + split; [discriminate|by intros [? _]].
Qed.

Lemma isBlank_false_iff (s : jsstring) :
  isBlank s = false <-> Exists (λ c, isWhiteSpace c = false) s.
Proof.
  rewrite isBlank_forallb. induction s as [|c s IH]; simpl.
  - split; [discriminate|]. intros Hex. by apply Exists_nil in Hex.
  - rewrite Exists_cons, <- IH. destruct (isWhiteSpace c); simpl.
    + split; [by right|]. by intros [?|?].
    + split; [by left|done].
Qed.

(** ** What [sendMessageToGemini] does at the call *)

Lemma sendMessageToGemini_blank (history : list Message) (message : jsstring)
    (st : State) :
  isBlank message = true ->
  sendMessageToGemini history message st = (inr None, st).
Proof. intros Hb. unfold sendMessageToGemini. by rewrite Hb. Qed.

Lemma sendMessageToGemini_nonblank (history : list Message) (message : jsstring)
    (st : State) :
  isBlank message = false ->
  let newChatHistory :=
    history ++ [{| role := user; text := message; sources := None |}] in
  sendMessageToGemini history message st =
    (inr (Some (requestOf newChatHistory)),
     exec (setChatHistory (λ _, newChatHistory) ;; setChatInput [] ;;
           setIsChatLoading true) st).
Proof. intros Hb. unfold sendMessageToGemini. by rewrite Hb. Qed.

Lemma withStore_store (w : World) : withStore w (store w) = w.
Proof. by destruct w. Qed.

Lemma callSubmit_nonblank (message : jsstring) (w : World) :
  isBlank message = false ->
  let newChatHistory :=
    chatHistory (store w) ++ [{| role := user; text := message; sources := None |}] in
  callSubmit message w =
    {| store := exec (setChatHistory (λ _, newChatHistory) ;; setChatInput [] ;;
                      setIsChatLoading true) (store w);
       fetches := fetches w ++ [requestOf newChatHistory];
       timers := timers w |}.
Proof.
  intros Hb. unfold callSubmit.
  by rewrite (sendMessageToGemini_nonblank _ _ _ Hb).
Qed.

(** C7. For an empty or white-space-only message the handler returns at once:
    the state is the state before, in every field, and nothing is asked of
    the network, so the page with what it is owed is as before. *)
Theorem submit_blank_is_noop `{UrlParser} (message : jsstring) :
  Forall (λ c, isWhiteSpace c = true) message ->
  (∀ history st, sendMessageToGemini history message st = (inr None, st))
  ∧ (∀ w, step (CallSubmit message) w = w).
Proof.
  intros Hws. apply isBlank_true_iff in Hws as Hb.
  split.
  - intros history st. by apply sendMessageToGemini_blank.
  - intros w. simpl. unfold callSubmit.
    rewrite sendMessageToGemini_blank by done. apply withStore_store.
Qed.

Lemma submit_blank_is_noop_witness :
  Forall (λ c, isWhiteSpace c = true) (lit "   ")
  ∧ step (H := exampleParser) (CallSubmit (lit "   ")) initialWorld = initialWorld.
Proof.
  assert (Forall (λ c, isWhiteSpace c = true) (lit "   ")) as Hws.
  { repeat constructor. }
  split; [exact Hws|].
  apply (submit_blank_is_noop (H := exampleParser) (lit "   ") Hws).
Defined.

(** C4, as the code has it. For a message that is not blank, the call
    appends to the transcript one entry of role [user] whose text is the
    whole message as it was passed, white space at its ends included, empties
    the input and raises the pending flag, all before anything settles; and
    it hands the network exactly one more request, a POST to the API whose
    contents are the entries of the transcript in their order, each with its
    role and text, followed by the new one. *)
Theorem submit_appends_and_requests `{UrlParser} (message : jsstring) (w : World) :
  Exists (λ c, isWhiteSpace c = false) message ->
  let w' := step (CallSubmit message) w in
  chatHistory (store w') =
    chatHistory (store w) ++ [{| role := user; text := message; sources := None |}]
  ∧ chatInput (store w') = []
  ∧ isChatLoading (store w') = true
  ∧ ∃ request,
      fetches w' = fetches w ++ [request]
      ∧ url request = API_URL
      ∧ method request = lit "POST"
      ∧ contents (payload request) =
          ((λ m, {| item_role := role m; item_parts := [text m] |})
             <$> chatHistory (store w))
          ++ [{| item_role := user; item_parts := [message] |}].
Proof.
  intros Hb. apply isBlank_false_iff in Hb.
  simpl. rewrite (callSubmit_nonblank message w Hb).
  repeat split. eexists. repeat split.
  simpl. by rewrite fmap_app.
Qed.

Lemma submit_appends_and_requests_witness :
  let w' := step (H := exampleParser) (CallSubmit (lit " hi")) initialWorld in
  chatHistory (store w') =
    [greeting; {| role := user; text := lit " hi"; sources := None |}]
  ∧ chatInput (store w') = []
  ∧ isChatLoading (store w') = true
  ∧ ∃ request,
      fetches w' = [request]
      ∧ url request = API_URL
      ∧ method request = lit "POST"
      ∧ contents (payload request) =
          [{| item_role := model; item_parts := [text greeting] |};
           {| item_role := user; item_parts := [lit " hi"] |}].
Proof.
  apply (submit_appends_and_requests (H := exampleParser) (lit " hi") initialWorld).
  right. left. reflexivity.
Defined.

(** The claim as the specification words it fails for a message with white
    space at an end: the text of the entry is the message, not the message
    trimmed. *)
Lemma submit_text_is_not_trimmed :
  isBlank (lit " hi") = false
  ∧ chatHistory
      (store (step (H := exampleParser) (CallSubmit (lit " hi")) initialWorld))
    = [greeting; {| role := user; text := lit " hi"; sources := None |}]
  ∧ trim (lit " hi") = lit "hi"
  ∧ lit " hi" ≠ trim (lit " hi").
Proof. repeat split. discriminate. Qed.

(** ** What [sendMessageToGemini] does when its request settles *)

Lemma answered_chatHistory (m : Message) (st : State) :
  chatHistory (answered m st) = chatHistory st ++ [m].
Proof. reflexivity. Qed.

Lemma answered_isChatLoading (m : Message) (st : State) :
  isChatLoading (answered m st) = false.
Proof. reflexivity. Qed.

(** The settled handler always ends normally, having appended one entry. *)
Lemma sendMessageToGemini_settled_spec `{UrlParser} (o : FetchOutcome) (st : State) :
  sendMessageToGemini_settled o st = (inr (), answered (replyTurn o) st).
Proof.
  unfold sendMessageToGemini_settled, try_finally, try_catch, handleResponse.
  destruct o as [|response]; [reflexivity|].
  unfold replyTurn, awaitFetch, awaitJson, readResult, mbind, M_bind, mret, M_ret.
  destruct (ok response); simpl; [|reflexivity].
  destruct (body response) as [| |result]; simpl; [reflexivity|reflexivity|].
  unfold lift.
  destruct (extractReply result) as [e|[responseText ss]]; simpl; [reflexivity|].
  destruct (formatResponse responseText ss); reflexivity.
Qed.

(** Replaces the settled handler by the state it leaves. *)
Ltac settle_fetch :=
  unfold exec; rewrite sendMessageToGemini_settled_spec; cbn [fst snd];
  rewrite ?answered_chatHistory, ?answered_isChatLoading.

Lemma replyTurn_failed `{UrlParser} (o : FetchOutcome) :
  failedRequest o -> replyTurn o = apology.
Proof.
  destruct o as [|response]; [done|].
  simpl. intros [Hok|Hbody].
  - by rewrite Hok.
  - rewrite Hbody. by destruct (ok response).
Qed.

Lemma replyTurn_role `{UrlParser} (o : FetchOutcome) : role (replyTurn o) = model.
Proof.
  destruct o as [|response]; [reflexivity|]. simpl.
  destruct (ok response); [|reflexivity].
  destruct (body response) as [| |result]; [reflexivity|reflexivity|].
  destruct (extractReply result) as [e|[responseText ss]]; [reflexivity|].
  by destruct (formatResponse _ _).
Qed.

Lemma exchange_nonblank `{UrlParser} (message : jsstring) (o : FetchOutcome)
    (w : World) :
  isBlank message = false ->
  chatHistory (store (exchange message o w)) =
    chatHistory (store w)
    ++ [{| role := user; text := message; sources := None |}; replyTurn o]
  ∧ isChatLoading (store (exchange message o w)) = false
  ∧ fetches (exchange message o w) = fetches w.
Proof.
  intros Hb. unfold exchange. cbn [step].
  rewrite (callSubmit_nonblank message w Hb). cbn [fetches].
  rewrite list_lookup_middle by reflexivity. cbn [store fetches].
  settle_fetch. split; [|split].
  - simpl. by rewrite <- app_assoc.
  - reflexivity.
  - clear. induction (fetches w) as [|r rs IH]; [reflexivity|].
    simpl. f_equal. exact IH.
Qed.

(** C3. When the network fails, the status is outside 200-299 or the body is
    not JSON, the settled handler ends normally (nothing is thrown to its
    caller) in whatever state the page is then, the transcript is the one
    before followed by one entry of role [model] with the fixed apology as
    text and no sources to show, and the pending flag is false. So a whole
    exchange with a message that is not blank leaves the transcript with the
    user's entry and that one entry after it. *)
Theorem failure_appends_one_apology `{UrlParser} (o : FetchOutcome) :
  failedRequest o ->
  (∀ st, ∃ st',
     sendMessageToGemini_settled o st = (inr (), st')
     ∧ chatHistory st' =
         chatHistory st ++ [{| role := model; text := apologyText; sources := None |}]
     ∧ isChatLoading st' = false)
  ∧ shownSources {| role := model; text := apologyText; sources := None |} = []
  ∧ (∀ message w,
       isBlank message = false ->
       chatHistory (store (exchange message o w)) =
         chatHistory (store w)
         ++ [{| role := user; text := message; sources := None |};
             {| role := model; text := apologyText; sources := None |}]
       ∧ isChatLoading (store (exchange message o w)) = false
       ∧ fetches (exchange message o w) = fetches w).
Proof.
  intros Hfail. pose proof (replyTurn_failed o Hfail) as Hreply.
  split; [|split; [reflexivity|]].
  - intros st. exists (answered apology st).
    rewrite sendMessageToGemini_settled_spec, Hreply. repeat split.
  - intros message w Hb.
    destruct (exchange_nonblank message o w Hb) as (Hhistory & Hflag & Hfetches).
    rewrite Hreply in Hhistory. done.
Qed.

Lemma failure_appends_one_apology_witness :
  failedRequest (Responded {| status := 503; body := NotJson |})
  ∧ ∃ st',
      sendMessageToGemini_settled (H := exampleParser)
        (Responded {| status := 503; body := NotJson |}) initialState = (inr (), st')
      ∧ chatHistory st' =
          chatHistory initialState
          ++ [{| role := model; text := apologyText; sources := None |}]
      ∧ isChatLoading st' = false.
Proof.
  assert (failedRequest (Responded {| status := 503; body := NotJson |})) as Hfail.
  { left. reflexivity. }
  split; [exact Hfail|].
  exact (proj1 (failure_appends_one_apology (H := exampleParser) _ Hfail) initialState).
Defined.

(** ** Which attributions are kept *)

Lemma keepSource_true (s : Source) :
  keepSource s = true ->
  ∃ u t, uri s = Some u ∧ title s = Some t ∧ truthy u = true ∧ truthy t = true.
Proof.
  unfold keepSource. destruct s as [[u|] [t|]]; simpl; intros Hk;
    try discriminate; try (by destruct (truthy _)).
  apply andb_prop in Hk as [Hu Ht]. by exists u, t.
Qed.

Lemma mapToSource_objects (attributions : list Api.Attribution) :
  mapToSource (Some <$> attributions) = inr (toSource <$> attributions).
Proof.
  induction attributions as [|a attributions IH]; [reflexivity|].
  cbn [fmap list_fmap mapToSource]. fold (fmap (M := list) (@Some Api.Attribution)).
  by rewrite IH.
Qed.

Lemma mapToSource_null (elements : list (option Api.Attribution)) :
  None ∈ elements -> mapToSource elements = inl TypeError.
Proof.
  induction elements as [|[a|] elements IH]; intros Hin.
  - by apply elem_of_nil in Hin.
  - apply elem_of_cons in Hin as [Hin|Hin]; [discriminate|].
    simpl. by rewrite (IH Hin).
  - reflexivity.
Qed.

Lemma mapToSource_split (elements : list (option Api.Attribution)) :
  (∃ attributions, elements = Some <$> attributions) ∨ None ∈ elements.
Proof.
  induction elements as [|[a|] elements [[attributions ->]|Hin]].
  - left. by exists [].
  - left. by exists (a :: attributions).
  - right. by right.
  - right. left.
  - right. left.
Qed.

Lemma groundingSources_kept (candidate : Api.Candidate) (ss : list Source) :
  groundingSources candidate = inr ss -> Forall (λ s, keepSource s = true) ss.
Proof.
  unfold groundingSources.
  destruct (Api.groundingMetadata candidate ≫= Api.groundingAttributions)
    as [[|elements]|]; [discriminate| |].
  - destruct (mapToSource elements) as [e|mapped]; [discriminate|].
    intros Heq. injection Heq as <-.
    apply List.Forall_forall. intros s Hs.
    by apply List.filter_In in Hs as [_ Hs].
  - intros Heq. injection Heq as <-. constructor.
Qed.

Lemma extractReply_with_text (result : Api.Result) (candidate : Api.Candidate)
    (t : jsstring) :
  firstCandidate result = Some candidate ->
  candidateText candidate = Some t ->
  truthy t = true ->
  extractReply result =
    match groundingSources candidate with
    | inl e => inl e
    | inr ss => inr (t, ss)
    end.
Proof. intros Hc Ht Htr. unfold extractReply. by rewrite Hc, Ht, Htr. Qed.

Lemma extractReply_kept (result : Api.Result) (responseText : jsstring)
    (ss : list Source) :
  extractReply result = inr (responseText, ss) ->
  Forall (λ s, keepSource s = true) ss.
Proof.
  unfold extractReply.
  destruct (firstCandidate result) as [candidate|];
    [|intros Heq; injection Heq as _ <-; constructor].
  destruct (candidateText candidate) as [t|];
    [|intros Heq; injection Heq as _ <-; constructor].
  destruct (truthy t); [|intros Heq; injection Heq as _ <-; constructor].
  destruct (groundingSources candidate) as [e|ss'] eqn:Hss; [discriminate|].
  intros Heq. injection Heq as _ <-. by apply (groundingSources_kept candidate).
Qed.

Lemma filter_keepSource_citationOf (attributions : list Api.Attribution) :
  List.filter keepSource (toSource <$> attributions) = omap citationOf attributions.
Proof.
  induction attributions as [|a attributions IH]; [reflexivity|].
  cbn [fmap list_fmap List.filter omap list_omap]. rewrite IH.
  destruct a as [[[[u|] [t|]]|]]; try reflexivity.
  - unfold keepSource, citationOf, toSource. simpl.
    by destruct (truthy u), (truthy t).
  - unfold keepSource, citationOf, toSource. simpl. by destruct (truthy u).
Qed.

Lemma groundingSources_citationOf (candidate : Api.Candidate)
    (attributions : list Api.Attribution) :
  attributionsOf candidate attributions ->
  groundingSources candidate = inr (omap citationOf attributions).
Proof.
  unfold groundingSources, attributionsOf.
  destruct (Api.groundingMetadata candidate ≫= Api.groundingAttributions)
    as [[|elements]|]; [done| |].
  - intros ->. rewrite mapToSource_objects.
    by rewrite filter_keepSource_citationOf.
  - by intros ->.
Qed.

Lemma groundingSources_unreadable (candidate : Api.Candidate) :
  attributionsUnreadable candidate -> groundingSources candidate = inl TypeError.
Proof.
  unfold groundingSources, attributionsUnreadable.
  destruct (Api.groundingMetadata candidate ≫= Api.groundingAttributions)
    as [[|elements]|]; [done| |done].
  intros Hin. by rewrite (mapToSource_null elements Hin).
Qed.

Lemma attributions_readable_or_not (candidate : Api.Candidate) :
  (∃ attributions, attributionsOf candidate attributions)
  ∨ attributionsUnreadable candidate.
Proof.
  unfold attributionsOf, attributionsUnreadable.
  destruct (Api.groundingMetadata candidate ≫= Api.groundingAttributions)
    as [[|elements]|]; [by right| |left; by exists []].
  destruct (mapToSource_split elements) as [[attributions ->]|Hin];
    [left; by exists attributions|by right].
Qed.

(** C5, as the code has it, for a readable 2xx answer whose [text], [uri]
    and [title], where they are there, are strings. When the first candidate
    has text and its attributions are missing or an array of objects, the
    sources are the pairs of exactly those attributions whose [uri] and
    [title] are both there and not empty, in the order of the attributions.
    When it has text and the attributions are an array with a [null] in it,
    or a value that is not an array, the block throws and the entry appended
    is the apology: nothing is kept. One of the two is always the case. When
    the first candidate has no text, no attribution is kept and the text is
    the fallback. And whenever the block ends with no source kept, the entry
    appended has the empty list as its sources and a text that is the reply
    text alone, with nothing after it. *)
Theorem sources_are_complete_attributions `{UrlParser} (result : Api.Result) :
  (∀ candidate t attributions,
     firstCandidate result = Some candidate ->
     candidateText candidate = Some t ->
     truthy t = true ->
     attributionsOf candidate attributions ->
     extractReply result = inr (t, omap citationOf attributions))
  ∧ (∀ candidate t,
       firstCandidate result = Some candidate ->
       candidateText candidate = Some t ->
       truthy t = true ->
       attributionsUnreadable candidate ->
       extractReply result = inl TypeError
       ∧ ∀ response st,
           ok response = true ->
           body response = Json result ->
           chatHistory (exec (sendMessageToGemini_settled (Responded response)) st) =
             chatHistory st ++ [apology])
  ∧ (∀ candidate,
       (∃ attributions, attributionsOf candidate attributions)
       ∨ attributionsUnreadable candidate)
  ∧ ((∀ candidate, firstCandidate result = Some candidate ->
        truthy_opt (candidateText candidate) = false) ->
     extractReply result = inr (fallbackText, []))
  ∧ (∀ responseText,
       extractReply result = inr (responseText, []) ->
       ∀ response st,
         ok response = true ->
         body response = Json result ->
         chatHistory (exec (sendMessageToGemini_settled (Responded response)) st) =
           chatHistory st
           ++ [{| role := model; text := responseText; sources := Some [] |}]).
Proof.
  split; [|split; [|split; [|split]]].
  - intros candidate t attributions Hc Ht Htr Hattr.
    rewrite (extractReply_with_text result candidate t Hc Ht Htr).
    by rewrite (groundingSources_citationOf candidate attributions Hattr).
  - intros candidate t Hc Ht Htr Hbad.
    assert (extractReply result = inl TypeError) as Hthrow.
    { rewrite (extractReply_with_text result candidate t Hc Ht Htr).
      by rewrite (groundingSources_unreadable candidate Hbad). }
    split; [exact Hthrow|].
    intros response st Hok Hbody. settle_fetch. do 2 f_equal.
    unfold replyTurn. by rewrite Hok, Hbody, Hthrow.
  - apply attributions_readable_or_not.
  - intros Hnone. unfold extractReply.
    destruct (firstCandidate result) as [candidate|]; [|reflexivity].
    specialize (Hnone candidate eq_refl).
    destruct (candidateText candidate) as [t|]; [|reflexivity].
    simpl in Hnone. by rewrite Hnone.
  - intros responseText Hempty response st Hok Hbody.
    settle_fetch. do 2 f_equal.
    unfold replyTurn. rewrite Hok, Hbody, Hempty. reflexivity.
Qed.

Lemma sources_are_complete_attributions_witness :
  extractReply citedResult =
    inr (lit "Hello",
         [{| uri := Some (lit "https://example.com/a"); title := Some (lit "Example") |};
          {| uri := Some (lit "https://rocq.example/docs"); title := Some (lit "Docs") |}])
  ∧ chatHistory
      (exec (sendMessageToGemini_settled (H := exampleParser)
               (Responded (okResponse nullElementResult))) initialState)
    = [greeting; apology]
  ∧ chatHistory
      (exec (sendMessageToGemini_settled (H := exampleParser)
               (Responded (okResponse (exampleResult (Some (lit "Hello"))
                                         [exampleAttribution "" "No address"]))))
         initialState)
    = [greeting; {| role := model; text := lit "Hello"; sources := Some [] |}].
Proof.
  split; [|split].
  - refine (proj1 (sources_are_complete_attributions (H := exampleParser) citedResult)
              _ (lit "Hello")
              [exampleAttribution "https://example.com/a" "Example";
               exampleAttribution "" "No address";
               exampleAttribution "https://rocq.example/docs" "Docs"]
              eq_refl eq_refl eq_refl eq_refl).
  - refine (proj2 (proj1 (proj2 (sources_are_complete_attributions
              (H := exampleParser) nullElementResult))
              _ (lit "Hello") eq_refl eq_refl eq_refl _)
              (okResponse _) initialState eq_refl eq_refl).
    right. left.
  - refine (proj2 (proj2 (proj2 (proj2 (sources_are_complete_attributions
              (H := exampleParser)
              (exampleResult (Some (lit "Hello")) [exampleAttribution "" "No address"])))))
              (lit "Hello") eq_refl (okResponse _) initialState eq_refl eq_refl).
Defined.

(** The claim as the specification words it fails when the first candidate
    has no text: the attribution below has a [uri] and a [title], both not
    empty, and it is not kept. *)
Lemma complete_attribution_not_kept :
  citationOf (exampleAttribution "https://example.com/a" "Example")
    = Some {| uri := Some (lit "https://example.com/a");
              title := Some (lit "Example") |}
  ∧ extractReply (exampleResult None
                    [exampleAttribution "https://example.com/a" "Example"])
    = inr (fallbackText, [])
  ∧ chatHistory
      (exec (sendMessageToGemini_settled (H := exampleParser)
               (Responded (okResponse (exampleResult None
                  [exampleAttribution "https://example.com/a" "Example"]))))
         initialState)
    = [greeting; {| role := model; text := fallbackText; sources := Some [] |}].
Proof. repeat split. Qed.

(** It fails as well when the attributions hold a [null] beside a complete
    attribution, or are not an array, or when the body is [null]: the entry
    appended is the apology. *)
Example unreadable_bodies_get_the_apology :
  replyTurn (H := exampleParser) (Responded (okResponse nullElementResult)) = apology
  ∧ replyTurn (H := exampleParser) (Responded (okResponse notAnArrayResult)) = apology
  ∧ replyTurn (H := exampleParser) (Responded {| status := 200; body := JsonNull |})
    = apology.
Proof. repeat split. Qed.

(** ** The citation lines and the citation block *)

Lemma citationLines_throws `{UrlParser} (ss : list Source) (s : Source) (i : nat) :
  s ∈ ss ->
  hostname (to_string (uri s)) = None ->
  ∃ e, citationLines i ss = inl e.
Proof.
  intros Hin Hhost. revert i.
  induction Hin as [s ss|s s' ss Hin IH]; intros i; simpl.
  - unfold citationLine. rewrite Hhost. eauto.
  - destruct (citationLine s' i) as [e|line]; [eauto|].
    destruct (IH Hhost (S i)) as [e ->]. eauto.
Qed.

Lemma citationLines_lines `{UrlParser} (ss : list Source) (i : nat) :
  Forall (λ s, is_Some (hostname (to_string (uri s)))) ss ->
  ∃ lines,
    citationLines i ss = inr lines
    ∧ length lines = length ss
    ∧ ∀ k s, ss !! k = Some s ->
        ∃ host,
          hostname (to_string (uri s)) = Some host
          ∧ lines !! k =
              Some (lit "[" ++ decimal (i + k + 1) ++ lit "] " ++ to_string (title s)
                    ++ lit " (" ++ host ++ lit ")").
Proof.
  intros Hall. revert i.
  induction Hall as [|s ss [host Hhost] _ IH]; intros i.
  - exists []. repeat split. intros k s Hk. by destruct k.
  - destruct (IH (S i)) as (lines & Hlines & Hlen & Hnth).
    simpl. unfold citationLine at 1. rewrite Hhost, Hlines.
    eexists. split; [reflexivity|]. split; [simpl; by rewrite Hlen|].
    intros [|k] s' Hk; simpl in Hk.
    + injection Hk as <-. exists host. split; [done|].
      by rewrite Nat.add_0_r.
    + destruct (Hnth k s' Hk) as (host' & Hh & Hl).
      exists host'. split; [done|].
      change (lines !! k = Some (lit "[" ++ decimal (i + S k + 1) ++ lit "] "
                ++ to_string (title s') ++ lit " (" ++ host' ++ lit ")")).
      rewrite Hl. by replace (S i + k + 1)%nat with (i + S k + 1)%nat by lia.
Qed.

(** C9. When the first candidate has text and one of the sources that
    survive the filter has a [uri] the URL parser refuses, [new URL] throws
    inside the [try] block: the handler still ends normally, and the one
    entry it appends is the apology, not the reply text with the other
    sources. *)
Theorem unparseable_uri_discards_reply `{UrlParser} (response : Response)
    (result : Api.Result) (candidate : Api.Candidate) (t u : jsstring)
    (ss : list Source) (s : Source) (st : State) :
  ok response = true ->
  body response = Json result ->
  firstCandidate result = Some candidate ->
  candidateText candidate = Some t ->
  truthy t = true ->
  groundingSources candidate = inr ss ->
  s ∈ ss ->
  uri s = Some u ->
  hostname u = None ->
  ∃ st',
    sendMessageToGemini_settled (Responded response) st = (inr (), st')
    ∧ chatHistory st' = chatHistory st ++ [apology]
    ∧ isChatLoading st' = false.
Proof.
  intros Hok Hbody Hc Ht Htr Hss Hin Hu Hhost.
  exists (answered apology st).
  rewrite sendMessageToGemini_settled_spec.
  assert (replyTurn (Responded response) = apology) as ->; [|by repeat split].
  unfold replyTurn. rewrite Hok, Hbody.
  rewrite (extractReply_with_text result candidate t Hc Ht Htr), Hss.
  unfold formatResponse.
  destruct (citationLines_throws ss s 0 Hin) as [e He].
  { by rewrite Hu. }
  rewrite He.
  destruct ss as [|s0 ss]; [|reflexivity].
  by apply elem_of_nil in Hin.
Qed.

Lemma unparseable_uri_discards_reply_witness :
  ∃ st',
    sendMessageToGemini_settled (H := exampleParser)
      (Responded (okResponse brokenResult)) initialState = (inr (), st')
    ∧ chatHistory st' = chatHistory initialState ++ [apology]
    ∧ isChatLoading st' = false.
Proof.
  eapply (unparseable_uri_discards_reply (H := exampleParser)
            (okResponse brokenResult) brokenResult _ (lit "Hello") (lit "not a url") _
            {| uri := Some (lit "not a url"); title := Some (lit "Broken") |}).
  - reflexivity.
  - reflexivity.
  - reflexivity.
  - reflexivity.
  - reflexivity.
  - reflexivity.
  - right. left.
  - reflexivity.
  - reflexivity.
Defined.

(** C6, as the code has it. When at least one source survives the filter and
    the URL parser accepts the [uri] of every surviving source, the handler
    appends one entry of role [model] whose text is the reply text followed
    by the citation block: the header line and then one line for each
    surviving source, in their order, the line of the source at position [k]
    (from 0) being its number [k + 1] in brackets, its title, and in
    parentheses the hostname of its [uri]. *)
Theorem reply_ends_with_citation_block `{UrlParser} (response : Response)
    (result : Api.Result) (responseText : jsstring) (ss : list Source)
    (st : State) :
  ok response = true ->
  body response = Json result ->
  extractReply result = inr (responseText, ss) ->
  ss ≠ [] ->
  (∀ s u, s ∈ ss -> uri s = Some u -> is_Some (hostname u)) ->
  ∃ lines,
    chatHistory (exec (sendMessageToGemini_settled (Responded response)) st) =
      chatHistory st
      ++ [{| role := model;
             text := responseText ++ citationBlock lines;
             sources := Some ss |}]
    ∧ length lines = length ss
    ∧ ∀ k s, ss !! k = Some s ->
        ∃ u t host,
          uri s = Some u ∧ title s = Some t ∧ hostname u = Some host
          ∧ lines !! k =
              Some (lit "[" ++ decimal (k + 1) ++ lit "] " ++ t
                    ++ lit " (" ++ host ++ lit ")").
Proof.
  intros Hok Hbody Hreply Hne Hparse.
  pose proof (extractReply_kept result responseText ss Hreply) as Hkept.
  assert (Forall (λ s, is_Some (hostname (to_string (uri s)))) ss) as Hall.
  { apply Forall_forall. intros s Hs.
    rewrite Forall_forall in Hkept.
    destruct (keepSource_true s (Hkept s Hs)) as (u & t & Hu & _).
    rewrite Hu. by apply (Hparse s u). }
  destruct (citationLines_lines ss 0 Hall) as (lines & Hlines & Hlen & Hnth).
  exists lines. split; [|split; [exact Hlen|]].
  - settle_fetch. do 2 f_equal.
    unfold replyTurn. rewrite Hok, Hbody, Hreply.
    unfold formatResponse. rewrite Hlines.
    destruct ss as [|s0 ss]; [done|]. reflexivity.
  - intros k s Hk.
    destruct (Hnth k s Hk) as (host & Hhost & Hline).
    rewrite Forall_forall in Hkept.
    destruct (keepSource_true s (Hkept s ltac:(by eapply list_elem_of_lookup_2)))
      as (u & t & Hu & Ht & _).
    rewrite Hu, Ht in *. by exists u, t, host.
Qed.

Lemma reply_ends_with_citation_block_witness :
  ∃ lines,
    chatHistory (exec (sendMessageToGemini_settled (H := exampleParser)
                         (Responded (okResponse citedResult))) initialState) =
      [greeting;
       {| role := model;
          text := lit "Hello" ++ citationBlock lines;
          sources := Some [{| uri := Some (lit "https://example.com/a");
                              title := Some (lit "Example") |};
                           {| uri := Some (lit "https://rocq.example/docs");
                              title := Some (lit "Docs") |}] |}]
    ∧ lines = [lit "[1] Example (example.com)"; lit "[2] Docs (rocq.example)"].
Proof.
  destruct (reply_ends_with_citation_block (H := exampleParser)
              (okResponse citedResult) citedResult (lit "Hello")
              [{| uri := Some (lit "https://example.com/a");
                  title := Some (lit "Example") |};
               {| uri := Some (lit "https://rocq.example/docs");
                  title := Some (lit "Docs") |}] initialState)
    as (lines & Hhistory & Hlen & Hnth).
  - reflexivity.
  - reflexivity.
  - reflexivity.
  - discriminate.
  - intros s u Hs Hu.
    apply elem_of_cons in Hs as [->|Hs]; [injection Hu as <-; by eexists|].
    apply list_elem_of_singleton in Hs as ->. injection Hu as <-. by eexists.
  - exists lines. split; [exact Hhistory|].
    destruct (Hnth 0%nat _ eq_refl) as (u0 & t0 & h0 & Hu0 & Ht0 & Hh0 & Hl0).
    destruct (Hnth 1%nat _ eq_refl) as (u1 & t1 & h1 & Hu1 & Ht1 & Hh1 & Hl1).
    injection Hu0 as <-. injection Ht0 as <-. injection Hh0 as <-.
    injection Hu1 as <-. injection Ht1 as <-. injection Hh1 as <-.
    destruct lines as [|l0 [|l1 [|l2 lines]]]; try discriminate Hlen.
    injection Hl0 as ->. injection Hl1 as ->. reflexivity.
Defined.

(** The claim as the specification words it fails when the parser refuses a
    [uri]: the first attribution below survives the filter, and the entry
    appended is the apology, which has no line feed in it, let alone a
    citation block. *)
Lemma citation_block_missing :
  extractReply (exampleResult (Some (lit "Hello"))
                  [exampleAttribution "not a url" "Broken"])
    = inr (lit "Hello",
           [{| uri := Some (lit "not a url"); title := Some (lit "Broken") |}])
  ∧ hostname (UrlParser := exampleParser) (lit "not a url") = None
  ∧ chatHistory
      (exec (sendMessageToGemini_settled (H := exampleParser)
               (Responded (okResponse (exampleResult (Some (lit "Hello"))
                  [exampleAttribution "not a url" "Broken"]))))
         initialState)
    = [greeting; apology]
  ∧ ¬ ∃ before lines, text apology = before ++ citationBlock lines.
Proof.
  split; [reflexivity|]. split; [reflexivity|]. split; [reflexivity|].
  intros (before & lines & Heq).
  assert (10 ∈ text apology) as Hin.
  { rewrite Heq. apply elem_of_app. right. left. }
  revert Hin. apply (bool_decide_eq_false_1 (10 ∈ text apology)). reflexivity.
Qed.

(** ** The transcript only grows *)

Lemma handleSubmit_chatHistory (t : jsstring) (file : option File) (st : State) :
  chatHistory (handleSubmit t file st).2 = chatHistory st
  ∧ isChatLoading (handleSubmit t file st).2 = isChatLoading st.
Proof.
  unfold handleSubmit.
  by destruct (isBlank t && negb (bool_decide (is_Some file))).
Qed.

Lemma handleSubmit_settled_spec (t : jsstring) (st : State) :
  handleSubmit_settled t st =
    (inr (), exec (setRecommendations MOCK_RECOMMENDATIONS ;;
                   setSkillsUsed (combinedSkills t) ;; setIsLoading false) st).
Proof. reflexivity. Qed.

Lemma callAnalyze_chat (w : World) :
  chatHistory (store (callAnalyze w)) = chatHistory (store w)
  ∧ isChatLoading (store (callAnalyze w)) = isChatLoading (store w)
  ∧ fetches (callAnalyze w) = fetches w.
Proof.
  unfold callAnalyze.
  pose proof (handleSubmit_chatHistory (skillsText (store w)) (resumeFile (store w))
                (store w)) as [Hh Hl].
  destruct (handleSubmit _ _ _) as [[e|[timer|]] st]; by simpl in *.
Qed.

Lemma callSubmit_prefix (message : jsstring) (w : World) :
  chatHistory (store w) `prefix_of` chatHistory (store (callSubmit message w)).
Proof.
  destruct (isBlank message) eqn:Hb.
  - unfold callSubmit. rewrite (sendMessageToGemini_blank _ _ _ Hb).
    by rewrite withStore_store.
  - rewrite (callSubmit_nonblank message w Hb). by apply prefix_app_r.
Qed.

(** No event takes an entry away from the transcript or changes one. *)
Lemma step_prefix `{UrlParser} (e : Event) (w : World) :
  chatHistory (store w) `prefix_of` chatHistory (store (step e w)).
Proof.
  destruct e; simpl; try reflexivity; try apply callSubmit_prefix.
  - by rewrite (proj1 (callAnalyze_chat w)).
  - by destruct (timers w !! i).
  - destruct (fetches w !! i); [|reflexivity]. simpl.
    settle_fetch. by apply prefix_app_r.
Qed.

(** Entries and requests in flight, counted together, go up by two at a call
    that gets past the blank test and stay as they are at any other event. *)
Lemma step_balance `{UrlParser} (e : Event) (w : World) :
  (length (chatHistory (store (step e w))) + length (fetches (step e w)))%nat =
    (length (chatHistory (store w)) + length (fetches w)
     + if getsPastBlankTest e w then 2 else 0)%nat.
Proof.
  assert (∀ message,
            (length (chatHistory (store (callSubmit message w)))
             + length (fetches (callSubmit message w)))%nat =
              (length (chatHistory (store w)) + length (fetches w)
               + if negb (isBlank message) then 2 else 0)%nat) as Hcall.
  { intros message. destruct (isBlank message) eqn:Hb.
    - unfold callSubmit. rewrite (sendMessageToGemini_blank _ _ _ Hb).
      rewrite withStore_store. simpl. lia.
    - rewrite (callSubmit_nonblank message w Hb). cbn [store fetches].
      change (chatHistory (exec _ (store w)))
        with (chatHistory (store w)
              ++ [{| role := user; text := message; sources := None |}]).
      rewrite !length_app. simpl. lia. }
  destruct e; cbn [step getsPastBlankTest]; try apply Hcall; try (simpl; lia).
  - destruct (callAnalyze_chat w) as (-> & _ & ->). lia.
  - destruct (timers w !! i); simpl; lia.
  - destruct (fetches w !! i) as [r|] eqn:Hi; [|lia].
    cbn [store fetches]. settle_fetch.
    rewrite length_app, length_delete by eauto.
    apply lookup_lt_Some in Hi. simpl. lia.
Qed.

Lemma run_balance `{UrlParser} (es : list Event) (w : World) :
  (length (chatHistory (store (run es w))) + length (fetches (run es w)))%nat =
    (length (chatHistory (store w)) + length (fetches w) + 2 * callsMade es w)%nat.
Proof.
  revert w. induction es as [|e es IH]; intros w.
  - simpl. lia.
  - change (run (e :: es) w) with (run es (step e w)).
    rewrite IH, step_balance. cbn [callsMade].
    destruct (getsPastBlankTest e w); lia.
Qed.

Lemma succeeds_sources `{UrlParser} (o : FetchOutcome) :
  succeeds o -> is_Some (sources (replyTurn o)).
Proof.
  intros Hs. specialize (Hs initialState). revert Hs.
  unfold handleResponse, replyTurn, awaitFetch, awaitJson, readResult, mbind,
    M_bind, mret, M_ret, throw, lift.
  destruct o as [|response]; simpl; [discriminate|].
  destruct (ok response); simpl; [|discriminate].
  destruct (body response) as [| |result]; simpl; [discriminate|discriminate|].
  destruct (extractReply result) as [e|[responseText ss]]; simpl; [discriminate|].
  destruct (formatResponse responseText ss); simpl; [discriminate|by eexists].
Qed.

Lemma callSubmitFrom_spec (history : list Message) (message : jsstring)
    (w : World) :
  callSubmitFrom history message w =
    if isBlank message then w
    else
      {| store :=
           exec (setChatHistory (λ _, history
                   ++ [{| role := user; text := message; sources := None |}]) ;;
                 setChatInput [] ;; setIsChatLoading true) (store w);
         fetches :=
           fetches w
           ++ [requestOf (history
                 ++ [{| role := user; text := message; sources := None |}])];
         timers := timers w |}.
Proof.
  unfold callSubmitFrom. destruct (isBlank message) eqn:Hb.
  - rewrite (sendMessageToGemini_blank _ _ _ Hb). apply withStore_store.
  - by rewrite (sendMessageToGemini_nonblank _ _ _ Hb).
Qed.

(** C2, as the code has it. After [N] exchanges, each a call from the
    render of the current state with a message that is not blank and a
    request that succeeds, settled before the next call, the transcript is
    the one before followed by [N] pairs, an entry of role [user] with the
    message and then an entry of role [model] with sources for the reply, in
    the order of the calls; so its length is the length before plus [2 N].
    The count does not need that order: after any run of events that leaves
    as many requests in flight as it found, the transcript is longer by two
    for each call that got past the blank test. No event, handled as every
    event is from the render of the current state, removes or changes an
    entry: the transcript before is a prefix of the one after. A call
    through a callback kept from another render is different: it writes
    that render's transcript followed by the new entry, whatever the
    transcript has become. *)
Theorem transcript_grows_by_two `{UrlParser} (xs : list (jsstring * FetchOutcome))
    (w : World) :
  Forall (λ x, Exists (λ c, isWhiteSpace c = false) x.1 ∧ succeeds x.2) xs ->
  length (chatHistory (store (exchanges xs w))) =
    (length (chatHistory (store w)) + 2 * length xs)%nat
  ∧ chatHistory (store (exchanges xs w)) =
      chatHistory (store w)
      ++ (xs ≫= λ x, [{| role := user; text := x.1; sources := None |};
                      replyTurn x.2])
  ∧ Forall (λ x, role (replyTurn x.2) = model ∧ is_Some (sources (replyTurn x.2))) xs
  ∧ (∀ es w0,
       length (fetches (run es w0)) = length (fetches w0) ->
       length (chatHistory (store (run es w0))) =
         (length (chatHistory (store w0)) + 2 * callsMade es w0)%nat)
  ∧ (∀ e w0, chatHistory (store w0) `prefix_of` chatHistory (store (step e w0)))
  ∧ (∀ message w0,
       step (CallSubmit message) w0
       = callSubmitFrom (chatHistory (store w0)) message w0)
  ∧ (∀ history message w0,
       isBlank message = false ->
       chatHistory (store (callSubmitFrom history message w0)) =
         history ++ [{| role := user; text := message; sources := None |}]).
Proof.
  intros Hxs.
  assert (chatHistory (store (exchanges xs w)) =
            chatHistory (store w)
            ++ (xs ≫= λ x, [{| role := user; text := x.1; sources := None |};
                            replyTurn x.2])) as Hhistory.
  { revert w. induction Hxs as [|[message o] xs [Hb _] _ IH]; intros w.
    - simpl. by rewrite app_nil_r.
    - apply isBlank_false_iff in Hb.
      change (exchanges ((message, o) :: xs) w)
        with (exchanges xs (exchange message o w)).
      rewrite IH, (proj1 (exchange_nonblank message o w Hb)).
      rewrite <- app_assoc. reflexivity. }
  split; [|split; [exact Hhistory|split; [|split; [|split; [|split]]]]].
  - rewrite Hhistory, length_app. f_equal.
    clear. induction xs as [|x xs IH]; [reflexivity|].
    change (length ([{| role := user; text := x.1; sources := None |}; replyTurn x.2]
                    ++ (xs ≫= λ x, [{| role := user; text := x.1; sources := None |};
                                    replyTurn x.2]))
            = (2 * length (x :: xs))%nat).
    rewrite length_app, IH. simpl. lia.
  - eapply Forall_impl; [exact Hxs|]. intros x [_ Hs].
    split; [apply replyTurn_role|by apply succeeds_sources].
  - intros es w0 Hsettled. pose proof (run_balance es w0) as Hbal. lia.
  - intros e w0. apply step_prefix.
  - reflexivity.
  - intros history message w0 Hb. rewrite callSubmitFrom_spec, Hb. reflexivity.
Qed.

Lemma transcript_grows_by_two_witness :
  length (chatHistory (store (exchanges (H := exampleParser) exampleExchanges
                                initialWorld))) = 5%nat
  ∧ role <$> chatHistory (store (exchanges (H := exampleParser) exampleExchanges
                                   initialWorld))
    = [model; user; model; user; model].
Proof.
  assert (Forall (λ x, Exists (λ c, isWhiteSpace c = false) x.1
                       ∧ succeeds (H := exampleParser) x.2) exampleExchanges)
    as Hxs.
  { repeat constructor. }
  destruct (transcript_grows_by_two (H := exampleParser) exampleExchanges
              initialWorld Hxs) as (Hlen & Hhistory & _).
  split; [exact Hlen|]. rewrite Hhistory. reflexivity.
Defined.

(** The claim as the specification words it fails for calls that are not all
    made from the render of the current state: of two calls through the
    callback of one render, the second writes that render's transcript and
    its own entry over the entry of the first. Both requests go out and both
    succeed, and the transcript has grown by three, not four, with the entry
    of the first call removed. *)
Lemma two_calls_from_one_render_lose_a_turn :
  let o := Responded (okResponse (exampleResult (Some (lit "Welcome")) [])) in
  let w1 := callSubmitFrom [greeting] (lit "first") initialWorld in
  let w2 := callSubmitFrom [greeting] (lit "second") w1 in
  let w4 := step (H := exampleParser) (FetchSettles 0 o)
              (step (H := exampleParser) (FetchSettles 0 o) w2) in
  chatHistory (store initialWorld) = [greeting]
  ∧ length (fetches w2) = 2%nat
  ∧ succeeds (H := exampleParser) o
  ∧ fetches w4 = []
  ∧ role <$> chatHistory (store w4) = [model; user; model; model]
  ∧ length (chatHistory (store w4)) = 4%nat
  ∧ ¬ chatHistory (store w1) `prefix_of` chatHistory (store w2).
Proof.
  repeat split. intros [rest Hrest]. discriminate Hrest.
Qed.

(** ** Requests in flight *)

Lemma reachable_flagCountsFetches `{UrlParser} (w : World) :
  reachable w -> flagCountsFetches w.
Proof.
  induction 1 as [|e w Hw IH Hoff]; [reflexivity|].
  unfold flagCountsFetches in *.
  destruct e; simpl in Hoff; cbn [step]; try exact IH; try discriminate.
  - destruct (callAnalyze_chat w) as (_ & -> & ->). exact IH.
  - apply andb_prop in Hoff as [_ Hoff]. apply negb_true_iff in Hoff.
    apply orb_false_elim in Hoff as [Hload Hb].
    rewrite (callSubmit_nonblank _ w Hb). cbn [fetches store].
    rewrite Hload in IH. rewrite length_app, IH. reflexivity.
  - destruct (timers w !! i); exact IH.
  - apply bool_decide_eq_true in Hoff.
    destruct (fetches w !! i) as [r|] eqn:Hi.
    + cbn [fetches store]. settle_fetch.
      destruct (isChatLoading (store w)); [|lia].
      destruct (fetches w) as [|r0 [|r1 rs]]; try discriminate IH.
      by destruct i.
    + apply lookup_ge_None in Hi. lia.
Qed.

(** C1, as the code has it. In every state a session reaches through the
    page there is one request in flight while the pending flag is true and
    none otherwise, so never two: while the flag is true the page offers
    neither the send button nor the input. The handler has no such guard:
    called for itself with a message that is not blank it hands the network
    one more request, whatever the flag. *)
Theorem one_request_in_flight_through_page `{UrlParser} (w : World) :
  reachable w ->
  (length (fetches w) ≤ 1)%nat
  ∧ length (fetches w) = (if isChatLoading (store w) then 1%nat else 0%nat)
  ∧ (isChatLoading (store w) = true ->
     offered SubmitChat w = false ∧ ∀ value, offered (TypeChat value) w = false)
  ∧ (∀ message, isBlank message = false ->
     length (fetches (step (CallSubmit message) w)) = S (length (fetches w))).
Proof.
  intros Hw. pose proof (reachable_flagCountsFetches w Hw) as Hinv.
  unfold flagCountsFetches in Hinv.
  split; [|split; [exact Hinv|split]].
  - rewrite Hinv. destruct (isChatLoading (store w)); lia.
  - intros Hload. simpl. rewrite Hload. simpl.
    split; [|intros _]; apply andb_false_r.
  - intros message Hb. cbn [step]. rewrite (callSubmit_nonblank message w Hb).
    cbn [fetches]. rewrite length_app. simpl. lia.
Qed.

Lemma examplePageSession_reachable :
  reachable (H := exampleParser) (run (H := exampleParser) examplePageSession initialWorld).
Proof.
  unfold examplePageSession, run. cbn [foldl].
  repeat (apply (reachable_step (H := exampleParser)); [|reflexivity]).
  apply reachable_initial.
Qed.

Lemma one_request_in_flight_through_page_witness :
  isChatLoading (store (run (H := exampleParser) examplePageSession initialWorld)) = true
  ∧ length (fetches (run (H := exampleParser) examplePageSession initialWorld)) = 1%nat
  ∧ offered SubmitChat (run (H := exampleParser) examplePageSession initialWorld) = false.
Proof.
  destruct (one_request_in_flight_through_page (H := exampleParser)
              (run (H := exampleParser) examplePageSession initialWorld)
              examplePageSession_reachable) as (_ & Hcount & Hoff & _).
  split; [reflexivity|]. split; [exact Hcount|]. exact (proj1 (Hoff eq_refl)).
Defined.

(** The claim as the specification words it fails: the first call below
    leaves the pending flag true and one request in flight, and the second
    call, made in that state, puts a second request in flight beside it. *)
Lemma second_call_while_pending :
  let w1 := step (H := exampleParser) (CallSubmit (lit "first")) initialWorld in
  let w2 := step (H := exampleParser) (CallSubmit (lit "second")) w1 in
  isChatLoading (store w1) = true
  ∧ length (fetches w1) = 1%nat
  ∧ isChatLoading (store w2) = true
  ∧ length (fetches w2) = 2%nat.
Proof. repeat split. Qed.

(** ** The mock analysis *)

Lemma handleSubmit_invalid (t : jsstring) (st : State) :
  isBlank t = true ->
  handleSubmit t None st =
    (inr None,
     exec (setError None ;; setRecommendations [] ;; setSkillsUsed [] ;;
           setError (Some validationMessage)) st).
Proof. intros Hb. unfold handleSubmit. by rewrite Hb. Qed.

Lemma handleSubmit_valid (t : jsstring) (file : option File) (st : State) :
  isBlank t && negb (bool_decide (is_Some file)) = false ->
  handleSubmit t file st =
    (inr (Some {| delay := 2000; capturedSkillsText := t |}),
     exec (setError None ;; setRecommendations [] ;; setSkillsUsed [] ;;
           setIsLoading true) st).
Proof. intros Hb. unfold handleSubmit. by rewrite Hb. Qed.

(** C8. With skills text that is empty or all white space and no file, the
    handler returns at once with the validation message as the error: no
    recommendation, no summary, no timer, and the loading flag as it was.
    With skills text that is not blank and no file, it raises the loading
    flag and starts the timer of 2000 ms; when the timer fires, in whatever
    state the page is then, the handler ends normally with the six mock
    recommendations, a summary that holds the trimmed text and the mock
    resume skills, and the loading flag false. *)
Theorem analyze_contract (t : jsstring) (st : State) :
  (Forall (λ c, isWhiteSpace c = true) t ->
   ∃ st',
     handleSubmit t None st = (inr None, st')
     ∧ error st' = Some validationMessage
     ∧ recommendations st' = []
     ∧ skillsUsed st' = []
     ∧ isLoading st' = isLoading st)
  ∧ (Exists (λ c, isWhiteSpace c = false) t ->
     ∃ st1,
       handleSubmit t None st =
         (inr (Some {| delay := 2000; capturedSkillsText := t |}), st1)
       ∧ isLoading st1 = true
       ∧ error st1 = None
       ∧ ∀ st2, ∃ st3,
           handleSubmit_settled t st2 = (inr (), st3)
           ∧ recommendations st3 = MOCK_RECOMMENDATIONS
           ∧ length (recommendations st3) = 6%nat
           ∧ skillsUsed st3 =
               lit "[From Textbox: " ++ trim t ++ lit "] + [From Resume: "
               ++ MOCK_SKILLS_FROM_RESUME ++ lit "]"
           ∧ error st3 = error st2
           ∧ isLoading st3 = false).
Proof.
  split.
  - intros Hb. apply isBlank_true_iff in Hb.
    eexists. split; [by apply handleSubmit_invalid|]. repeat split.
  - intros Hex. apply isBlank_false_iff in Hex.
    eexists. split; [apply handleSubmit_valid; by rewrite Hex|].
    repeat split. intros st2. eexists.
    split; [apply handleSubmit_settled_spec|]. repeat split.
    simpl. unfold combinedSkills.
    unfold isBlank in Hex. apply negb_false_iff in Hex. by rewrite Hex.
Qed.

Lemma analyze_contract_witness :
  (∃ st',
     handleSubmit [] None initialState = (inr None, st')
     ∧ error st' = Some validationMessage
     ∧ recommendations st' = []
     ∧ skillsUsed st' = []
     ∧ isLoading st' = isLoading initialState)
  ∧ ∃ st3,
      handleSubmit_settled (lit "Python, SQL") initialState = (inr (), st3)
      ∧ recommendations st3 = MOCK_RECOMMENDATIONS
      ∧ length (recommendations st3) = 6%nat
      ∧ skillsUsed st3 =
          lit "[From Textbox: Python, SQL] + [From Resume: Python, SQL, MongoDB, Database Management, CRUD application logic, Teamwork, Communication.]"
      ∧ error st3 = error initialState
      ∧ isLoading st3 = false.
Proof.
  split.
  - apply (proj1 (analyze_contract [] initialState)). constructor.
  - destruct (proj2 (analyze_contract (lit "Python, SQL") initialState))
      as (st1 & _ & _ & _ & Hfire).
    + left. reflexivity.
    + exact (Hfire initialState).
Defined.

(** C10. Whatever the inputs and whatever the state before, when the handler
    reaches its [await] or returns, the recommendations and the summary are
    empty and the error is the validation message or none: nothing of an
    earlier analysis is left, also when this call fails validation and
    starts no timer. *)
Theorem analyze_clears_previous_results (t : jsstring) (file : option File)
    (st : State) :
  recommendations (handleSubmit t file st).2 = []
  ∧ skillsUsed (handleSubmit t file st).2 = []
  ∧ error (handleSubmit t file st).2 =
      (if isBlank t && negb (bool_decide (is_Some file))
       then Some validationMessage else None)
  ∧ (handleSubmit t file st).1 =
      inr (if isBlank t && negb (bool_decide (is_Some file))
           then None else Some {| delay := 2000; capturedSkillsText := t |}).
Proof.
  unfold handleSubmit.
  by destruct (isBlank t && negb (bool_decide (is_Some file))).
Qed.

(** An analysis that succeeds, then one that fails validation: the six
    recommendations and the summary are gone. *)
Example failed_validation_erases_results :
  let shown := run (H := exampleParser)
                 [TypeSkills (lit "Python, SQL"); SubmitForm; TimerFires 0]
                 initialWorld in
  let after := run (H := exampleParser) [TypeSkills (lit "  "); SubmitForm] shown in
  recommendations (store shown) = MOCK_RECOMMENDATIONS
  ∧ recommendations (store after) = []
  ∧ skillsUsed (store after) = []
  ∧ error (store after) = Some validationMessage
  ∧ timers after = [].
Proof. repeat split. Qed.

(** * Further properties *)

(** ** The badge and the label of a recommendation *)

Lemma split_before_separator (sep : N) (n rest : jsstring) :
  sep ∉ n -> split sep (n ++ sep :: rest) = n :: split sep rest.
Proof.
  induction n as [|c n IH]; intros Hn; simpl.
  - by rewrite N.eqb_refl.
  - apply not_elem_of_cons in Hn as [Hc Hn].
    destruct (N.eqb_spec c sep) as [->|_]; [done|].
    by rewrite (IH Hn).
Qed.

Lemma split_without_separator (sep : N) (s : jsstring) :
  sep ∉ s -> split sep s = [s].
Proof.
  induction s as [|c s IH]; intros Hs; simpl; [done|].
  apply not_elem_of_cons in Hs as [Hc Hs].
  destruct (N.eqb_spec c sep) as [->|_]; [done|].
  by rewrite (IH Hs).
Qed.

Lemma indexOf_first (c : N) (n rest : jsstring) :
  c ∉ n -> indexOf c (n ++ c :: rest) = Z.of_nat (length n).
Proof.
  induction n as [|x n IH]; intros Hn; simpl indexOf.
  - by rewrite N.eqb_refl.
  - apply not_elem_of_cons in Hn as [Hx Hn].
    destruct (N.eqb_spec x c) as [->|_]; [done|].
    rewrite (IH Hn).
    destruct (Z.ltb_spec (Z.of_nat (length n)) 0); simpl length; lia.
Qed.

Lemma indexOf_absent (c : N) (s : jsstring) : c ∉ s -> indexOf c s = (-1)%Z.
Proof.
  induction s as [|x s IH]; intros Hs; simpl; [done|].
  apply not_elem_of_cons in Hs as [Hx Hs].
  destruct (N.eqb_spec x c) as [->|_]; [done|].
  by rewrite (IH Hs).
Qed.

(** X1. For a recommendation written as a number, a full stop, one more code
    unit and a title, the badge shows the number and the label shows the
    title: the code unit after the first full stop is dropped whatever it
    is, and later full stops stay in the title. *)
Theorem badge_and_label_of_numbered_role (n rest : jsstring) (c : N) :
  DOT ∉ n ->
  roleBadge (n ++ DOT :: c :: rest) = n
  ∧ roleLabel (n ++ DOT :: c :: rest) = rest.
Proof.
  intros Hn. unfold roleBadge, roleLabel, substring. split.
  - by rewrite (split_before_separator DOT n (c :: rest) Hn).
  - rewrite (indexOf_first DOT n (c :: rest) Hn).
    replace (Z.to_nat (Z.max 0 (Z.of_nat (length n) + 2))) with (length n + 2)%nat
      by lia.
    rewrite drop_app_add'; [|reflexivity]. reflexivity.
Qed.

Lemma badge_and_label_of_numbered_role_witness :
  roleBadge <$> MOCK_RECOMMENDATIONS !! 3%nat = Some (lit "4")
  ∧ roleLabel <$> MOCK_RECOMMENDATIONS !! 3%nat
    = Some (lit "Data Engineer (Database & ETL Focus)").
Proof.
  destruct (badge_and_label_of_numbered_role (lit "4")
              (lit "Data Engineer (Database & ETL Focus)") 32) as [Hb Hl].
  - apply (bool_decide_eq_false_1 (DOT ∈ lit "4")). reflexivity.
  - split; [exact (f_equal Some Hb)|exact (f_equal Some Hl)].
Defined.

(** X2. For a recommendation with no full stop in it, the badge shows the
    whole of it and the label shows it without its first code unit; for one
    that ends at its first full stop the label is empty. *)
Theorem badge_and_label_without_full_stop (role : jsstring) :
  DOT ∉ role ->
  roleBadge role = role
  ∧ roleLabel role = drop 1 role
  ∧ roleBadge (role ++ [DOT]) = role
  ∧ roleLabel (role ++ [DOT]) = [].
Proof.
  intros Hrole. unfold roleBadge, roleLabel, substring. repeat split.
  - by rewrite (split_without_separator DOT role Hrole).
  - by rewrite (indexOf_absent DOT role Hrole).
  - by rewrite (split_before_separator DOT role [] Hrole).
  - rewrite (indexOf_first DOT role [] Hrole).
    apply drop_ge. rewrite length_app. simpl. lia.
Qed.

Lemma badge_and_label_without_full_stop_witness :
  roleBadge (lit "Architect") = lit "Architect"
  ∧ roleLabel (lit "Architect") = lit "rchitect".
Proof.
  destruct (badge_and_label_without_full_stop (lit "Architect")) as (Hb & Hl & _).
  - apply (bool_decide_eq_false_1 (DOT ∈ lit "Architect")). reflexivity.
  - split; [exact Hb|exact Hl].
Defined.

(** ** The two forms and the window do not disturb each other *)

Lemma exec_settled `{UrlParser} (o : FetchOutcome) (st : State) :
  exec (sendMessageToGemini_settled o) st = answered (replyTurn o) st.
Proof. unfold exec. by rewrite sendMessageToGemini_settled_spec. Qed.

Lemma callSubmit_spec (message : jsstring) (w : World) :
  callSubmit message w =
    if isBlank message then w
    else
      {| store :=
           exec (setChatHistory (λ _, chatHistory (store w)
                   ++ [{| role := user; text := message; sources := None |}]) ;;
                 setChatInput [] ;; setIsChatLoading true) (store w);
         fetches :=
           fetches w
           ++ [requestOf (chatHistory (store w)
                 ++ [{| role := user; text := message; sources := None |}])];
         timers := timers w |}.
Proof.
  destruct (isBlank message) eqn:Hb.
  - unfold callSubmit. rewrite (sendMessageToGemini_blank _ _ _ Hb).
    apply withStore_store.
  - apply (callSubmit_nonblank message w Hb).
Qed.

Lemma callAnalyze_spec (w : World) :
  callAnalyze w =
    if isBlank (skillsText (store w))
       && negb (bool_decide (is_Some (resumeFile (store w))))
    then
      {| store :=
           exec (setError None ;; setRecommendations [] ;; setSkillsUsed [] ;;
                 setError (Some validationMessage)) (store w);
         fetches := fetches w;
         timers := timers w |}
    else
      {| store :=
           exec (setError None ;; setRecommendations [] ;; setSkillsUsed [] ;;
                 setIsLoading true) (store w);
         fetches := fetches w;
         timers :=
           timers w
           ++ [{| delay := 2000; capturedSkillsText := skillsText (store w) |}] |}.
Proof.
  unfold callAnalyze, handleSubmit.
  by destruct (isBlank (skillsText (store w))
               && negb (bool_decide (is_Some (resumeFile (store w))))).
Qed.

Lemma step_TimerFires `{UrlParser} (i : nat) (w : World) :
  step (TimerFires i) w =
    match timers w !! i with
    | Some timer =>
        {| store :=
             exec (setRecommendations MOCK_RECOMMENDATIONS ;;
                   setSkillsUsed (combinedSkills (capturedSkillsText timer)) ;;
                   setIsLoading false) (store w);
           fetches := fetches w;
           timers := delete i (timers w) |}
    | None => w
    end.
Proof. reflexivity. Qed.

Lemma step_FetchSettles `{UrlParser} (i : nat) (o : FetchOutcome) (w : World) :
  step (FetchSettles i o) w =
    match fetches w !! i with
    | Some _ =>
        {| store := answered (replyTurn o) (store w);
           fetches := delete i (fetches w);
           timers := timers w |}
    | None => w
    end.
Proof.
  cbn [step]. destruct (fetches w !! i); [|reflexivity].
  by rewrite exec_settled.
Qed.

Ltac page_step :=
  rewrite ?step_TimerFires, ?step_FetchSettles;
  cbn [step];
  rewrite ?callSubmit_spec, ?callAnalyze_spec;
  cbv beta iota zeta delta
      [store fetches timers withStore exec answered mbind M_bind mret M_ret fst snd
       setSkillsText setResumeFile setRecommendations setSkillsUsed setIsLoading
       setError setIsChatOpen setChatHistory setChatInput setIsChatLoading
       skillsText resumeFile recommendations skillsUsed isLoading error isChatOpen
       chatHistory chatInput isChatLoading].

(** X3. Events that are about different things (the analysis form, the chat
    window being open, the conversation) can happen in either order: the
    page ends in the same state, with the same requests in flight and the
    same timers pending. *)
Theorem events_of_different_concerns_commute `{UrlParser} (a b : Event) (w : World) :
  concern a ≠ concern b ->
  step a (step b w) = step b (step a w).
Proof.
  intros Hc. destruct w as [[] fs ts].
  destruct a, b; try (by destruct Hc); clear Hc;
    repeat (page_step;
            try match goal with
            | |- context [if ?c then _ else _] => destruct c eqn:?
            | |- context [match ?l !! ?i with _ => _ end] => destruct (l !! i) eqn:?
            end);
    try reflexivity; try congruence.

Qed.

Lemma events_of_different_concerns_commute_witness :
  step (H := exampleParser) SubmitForm
    (step (H := exampleParser) (CallSubmit (lit "Which roles fit me?")) initialWorld)
  = step (H := exampleParser) (CallSubmit (lit "Which roles fit me?"))
      (step (H := exampleParser) SubmitForm initialWorld).
Proof.
  apply (events_of_different_concerns_commute (H := exampleParser)).
  discriminate.
Defined.

Ltac page_cases :=
  repeat (page_step;
          try match goal with
          | |- context [if ?c then _ else _] => destruct c eqn:?
          | |- context [match ?l !! ?i with _ => _ end] => destruct (l !! i) eqn:?
          end).

Lemma reachable_analysisSettled `{UrlParser} (w : World) :
  reachable w -> analysisSettled w.
Proof.
  induction 1 as [|e w Hw IH Hoff].
  { cbv. split; [reflexivity|]. left. repeat split. by left. }
  destruct w as [[] fs ts]. unfold analysisSettled in *.
  cbn [store timers isLoading skillsText recommendations skillsUsed error] in IH.
  destruct e; cbn in Hoff; page_cases; subst;
    try discriminate; try exact IH;
    try match type of Hoff with negb ?b = true => is_var b; destruct b end;
    try discriminate; cbv iota in IH.
  - destruct IH as [-> _]. repeat split.
  - destruct IH as [-> _]. split; [reflexivity|]. left. repeat split. by right.
  - destruct isLoading0.
    + destruct IH as (-> & _ & _ & ->).
      destruct i; [|discriminate]. split; [reflexivity|]. right. eauto.
    + by destruct IH as [-> _].
Qed.

(** ** The analysis through the page *)

(** X4. In every state a session reaches through the page, one timer is
    pending while the loading flag is true and none otherwise, and the
    pending timer holds the text that is in the skills box: while loading
    the page offers neither the box, nor the file input, nor the submit
    button. The handler has no such guard: run again while loading, with a
    text that is not blank, it starts a second timer. *)
Theorem one_analysis_at_a_time_through_page `{UrlParser} (w : World) :
  reachable w ->
  length (timers w) = (if isLoading (store w) then 1%nat else 0%nat)
  ∧ (∀ timer, timer ∈ timers w ->
       delay timer = 2000 ∧ capturedSkillsText timer = skillsText (store w))
  ∧ (isLoading (store w) = true ->
       offered SubmitForm w = false
       ∧ (∀ value, offered (TypeSkills value) w = false)
       ∧ (∀ file, offered (ChooseFile file) w = false)
       ∧ (isBlank (skillsText (store w)) = false ->
          length (timers (step SubmitForm w)) = 2%nat)).
Proof.
  intros Hw. pose proof (reachable_analysisSettled w Hw) as Hinv.
  unfold analysisSettled in Hinv. cbv zeta in Hinv.
  destruct (isLoading (store w)) eqn:Hload.
  - destruct Hinv as (Htimers & _). rewrite Htimers.
    split; [reflexivity|]. split.
    + intros timer Hin. apply list_elem_of_singleton in Hin as ->. by split.
    + intros _. cbn [offered]. rewrite Hload. repeat split.
      intros Hb. cbn [step]. rewrite callAnalyze_spec, Hb.
      cbn [andb timers]. by rewrite Htimers.
  - destruct Hinv as (Htimers & _). rewrite Htimers.
    split; [reflexivity|]. split; [|discriminate].
    intros timer Hin. by apply elem_of_nil in Hin.
Qed.

Lemma exampleFormSession_reachable :
  reachable (H := exampleParser) (run (H := exampleParser) exampleFormSession initialWorld).
Proof.
  unfold exampleFormSession, run. cbn [foldl].
  repeat (apply (reachable_step (H := exampleParser)); [|reflexivity]).
  apply reachable_initial.
Qed.

Lemma one_analysis_at_a_time_through_page_witness :
  timers (run (H := exampleParser) exampleFormSession initialWorld)
    = [{| delay := 2000; capturedSkillsText := lit "Python, SQL" |}]
  ∧ length (timers (run (H := exampleParser) exampleFormSession initialWorld)) = 1%nat
  ∧ offered SubmitForm (run (H := exampleParser) exampleFormSession initialWorld) = false.
Proof.
  destruct (one_analysis_at_a_time_through_page (H := exampleParser)
              (run (H := exampleParser) exampleFormSession initialWorld)
              exampleFormSession_reachable) as (Hcount & _ & Hoff).
  split; [reflexivity|]. split; [exact Hcount|]. exact (proj1 (Hoff eq_refl)).
Defined.

(** X5. In every state a session reaches through the page the error box and
    the results are never shown together, and nothing of either is shown
    while the analysis is loading; an error that is shown is the validation
    message (the message of the [catch] block never is), and results that
    are shown are the mock recommendations with a summary built from some
    text. *)
Theorem error_and_results_exclude_each_other `{UrlParser} (w : World) :
  reachable w ->
  errorShown (store w) && resultsShown (store w) = false
  ∧ (isLoading (store w) = true ->
       errorShown (store w) = false ∧ resultsShown (store w) = false
       ∧ skillsUsed (store w) = [])
  ∧ (errorShown (store w) = true -> error (store w) = Some validationMessage)
  ∧ (resultsShown (store w) = true ->
       recommendations (store w) = MOCK_RECOMMENDATIONS
       ∧ ∃ t, skillsUsed (store w) = combinedSkills t).
Proof.
  intros Hw. pose proof (reachable_analysisSettled w Hw) as Hinv.
  unfold analysisSettled in Hinv. cbv zeta in Hinv.
  unfold errorShown, resultsShown.
  destruct (isLoading (store w)).
  - destruct Hinv as (_ & -> & -> & ->). repeat split; discriminate.
  - destruct Hinv as (_ & [(-> & _ & [->| ->])|(-> & -> & Hsummary)]);
      repeat split; try discriminate; done.
Qed.

Lemma error_and_results_exclude_each_other_witness :
  errorShown (store (run (H := exampleParser) exampleFormSession initialWorld)) = false
  ∧ resultsShown (store (run (H := exampleParser) exampleFormSession initialWorld))
    = false.
Proof.
  destruct (error_and_results_exclude_each_other (H := exampleParser)
              (run (H := exampleParser) exampleFormSession initialWorld)
              exampleFormSession_reachable) as (_ & Hloading & _).
  destruct (Hloading eq_refl) as (He & Hr & _). by split.
Defined.

(** Off the page it is otherwise: with the handler run twice before the
    first timer fires, a later validation error stays while the second timer
    brings the results back. *)
Example unguarded_analysis_shows_both :
  let w := run (H := exampleParser)
             [TypeSkills (lit "Python"); SubmitForm; SubmitForm; TimerFires 0;
              TypeSkills []; SubmitForm; TimerFires 0] initialWorld in
  errorShown (store w) = true ∧ resultsShown (store w) = true.
Proof. by split. Qed.

(** ** The conversation through the page *)

Lemma alternating_snoc (first : Role) (history : list Message) (m : Message) :
  alternating first history = true ->
  role m = match role <$> last history with
           | Some user => model
           | Some model => user
           | None => first
           end ->
  alternating first (history ++ [m]) = true.
Proof.
  revert first. induction history as [|x history IH]; intros first Halt Hm.
  - simpl in *. rewrite Hm. by destruct first.
  - simpl in Halt |- *.
    destruct first, (role x) eqn:Hx; try discriminate.
    all: apply IH; [exact Halt|].
    all: destruct history as [|y history]; [simpl in *; by rewrite Hx in Hm|].
    all: change (last (x :: y :: history)) with (last (y :: history)) in Hm.
    all: destruct (last (y :: history)) as [z|] eqn:Hz;
      [simpl in *; by destruct (role z)|by apply last_None in Hz].
Qed.

Lemma reachable_conversationSettled `{UrlParser} (w : World) :
  reachable w -> conversationSettled w.
Proof.
  induction 1 as [|e w Hw IH Hoff].
  { by cbv. }
  destruct w as [[] fs ts]. unfold conversationSettled in *.
  cbn [store fetches isChatLoading chatHistory chatInput] in IH.
  destruct IH as [Halt IH].
  destruct e; cbn in Hoff; page_cases; subst;
    try discriminate; try (split; [exact Halt|exact IH]);
    try (exfalso; destruct isChatOpen0; discriminate).
  - destruct isChatLoading0; [by destruct isChatOpen0|].
    destruct IH as [Hlast ->]. split.
    + apply alternating_snoc; [exact Halt|]. by rewrite Hlast.
    + by rewrite last_snoc.
  - destruct isChatLoading0.
    + destruct IH as (Hlast & _ & ->). destruct i; [|discriminate]. split.
      * apply alternating_snoc; [exact Halt|].
        rewrite Hlast. apply replyTurn_role.
      * rewrite last_snoc. cbn. by rewrite replyTurn_role.
    + by destruct IH as [_ ->].
Qed.

(** X6. In every state a session reaches through the page the roles of the
    transcript take turns, from the model's greeting on. While a reply is
    pending the last entry is the user's, the input is empty and the request
    in flight carries exactly the transcript as it is now; otherwise the
    last entry is the model's and nothing is in flight. *)
Theorem conversation_takes_turns_through_page `{UrlParser} (w : World) :
  reachable w ->
  alternating model (chatHistory (store w)) = true
  ∧ (isChatLoading (store w) = true ->
       role <$> last (chatHistory (store w)) = Some user
       ∧ chatInput (store w) = []
       ∧ fetches w = [requestOf (chatHistory (store w))])
  ∧ (isChatLoading (store w) = false ->
       role <$> last (chatHistory (store w)) = Some model
       ∧ fetches w = []).
Proof.
  intros Hw. destruct (reachable_conversationSettled w Hw) as [Halt Hinv].
  split; [exact Halt|].
  destruct (isChatLoading (store w)); split; intros ?; done.
Qed.

Lemma conversation_takes_turns_through_page_witness :
  role <$> chatHistory (store (run (H := exampleParser) examplePageSession initialWorld))
    = [model; user]
  ∧ (λ request, contents (payload request))
      <$> fetches (run (H := exampleParser) examplePageSession initialWorld)
    = [[{| item_role := model; item_parts := [text greeting] |};
        {| item_role := user; item_parts := [lit "Which roles fit me?"] |}]].
Proof.
  destruct (conversation_takes_turns_through_page (H := exampleParser)
              (run (H := exampleParser) examplePageSession initialWorld)
              examplePageSession_reachable) as (_ & Hpending & _).
  destruct (Hpending eq_refl) as (_ & _ & Hfetches).
  split; [reflexivity|]. rewrite Hfetches. reflexivity.
Defined.

(** ** Every entry can be read *)

Lemma extractReply_text (result : Api.Result) (responseText : jsstring)
    (ss : list Source) :
  extractReply result = inr (responseText, ss) -> responseText ≠ [].
Proof.
  unfold extractReply.
  destruct (firstCandidate result) as [candidate|];
    [|intros Heq; by injection Heq as <- _].
  destruct (candidateText candidate) as [t|];
    [|intros Heq; by injection Heq as <- _].
  destruct t as [|c t]; simpl; [intros Heq; by injection Heq as <- _|].
  destruct (groundingSources candidate); [discriminate|].
  intros Heq. by injection Heq as <- _.
Qed.

Lemma formatResponse_text `{UrlParser} (responseText fullResponse : jsstring)
    (ss : list Source) :
  formatResponse responseText ss = inr fullResponse ->
  responseText ≠ [] -> fullResponse ≠ [].
Proof.
  unfold formatResponse. intros Hf Ht.
  destruct (0 <? length ss)%nat.
  - destruct (citationLines 0 ss) as [e|lines]; [discriminate|].
    injection Hf as <-. by destruct responseText.
  - by injection Hf as <-.
Qed.

Lemma replyTurn_readable `{UrlParser} (o : FetchOutcome) : readable (replyTurn o).
Proof.
  assert (readable apology) as Hapology.
  { split; [discriminate|]. intros ss s Hss. discriminate Hss. }
  destruct o as [|response]; [exact Hapology|]. unfold replyTurn.
  destruct (ok response); [|exact Hapology].
  destruct (body response) as [| |result]; [exact Hapology|exact Hapology|].
  destruct (extractReply result) as [e|[responseText ss]] eqn:Hreply;
    [exact Hapology|].
  destruct (formatResponse _ _) as [e|fullResponse] eqn:Hf; [exact Hapology|].
  split; cbn [text sources].
  - exact (formatResponse_text _ _ _ Hf (extractReply_text result _ _ Hreply)).
  - intros ss' s Hss Hs. injection Hss as <-.
    pose proof (extractReply_kept result _ _ Hreply) as Hkept.
    rewrite Forall_forall in Hkept.
    destruct (keepSource_true s (Hkept s Hs)) as (u & t & Hu & Ht & Hut & Htt).
    exists u, t. repeat split; try done.
    + by destruct u.
    + by destruct t.
Qed.

Lemma step_readable `{UrlParser} (e : Event) (w : World) :
  Forall readable (chatHistory (store w)) ->
  Forall readable (chatHistory (store (step e w))).
Proof.
  intros Hall.
  assert (∀ message,
            Forall readable (chatHistory (store (callSubmit message w)))) as Hcall.
  { intros message. rewrite callSubmit_spec.
    destruct (isBlank message) eqn:Hb; [exact Hall|].
    cbn. apply Forall_app. split; [exact Hall|].
    apply Forall_singleton. by split. }
  destruct e; cbn [step]; try exact Hall; try apply Hcall.
  - by rewrite (proj1 (callAnalyze_chat w)).
  - by destruct (timers w !! i).
  - destruct (fetches w !! i); [|exact Hall]. cbn [store]. settle_fetch.
    apply Forall_app. split; [exact Hall|].
    apply Forall_singleton, replyTurn_readable.
Qed.

Lemma run_prefix `{UrlParser} (es : list Event) (w : World) :
  chatHistory (store w) `prefix_of` chatHistory (store (run es w)).
Proof.
  revert w. induction es as [|e es IH]; intros w; [done|].
  change (run (e :: es) w) with (run es (step e w)).
  etrans; [apply step_prefix|apply IH].
Qed.

(** X7. In every state of every session from the initial page, whatever
    events happen, through the controls or not, and whichever renders the
    callbacks called directly were kept from, the first entry of the
    transcript is the greeting and every entry can be read: an entry of the
    user has a text that is not blank and no sources, an entry of the model
    has a text that is not empty, and every source it carries has an address
    and a title, both not empty. *)
Theorem every_entry_can_be_read `{UrlParser} (ws : list World) :
  session ws ->
  Forall (λ w, head (chatHistory (store w)) = Some greeting
               ∧ Forall readable (chatHistory (store w))) ws.
Proof.
  induction 1 as [|e w ws Hws IH|w0 message w ws Hws IH Hw0].
  - apply Forall_singleton. split; [reflexivity|].
    apply Forall_singleton. split; [discriminate|]. intros ss s Hss. discriminate Hss.
  - apply Forall_cons. split; [|exact IH].
    apply Forall_cons in IH as [[Hhead Hall] _]. split.
    + destruct (step_prefix e w) as [rest ->].
      by destruct (chatHistory (store w)).
    + by apply step_readable.
  - apply Forall_cons. split; [|exact IH].
    rewrite Forall_forall in IH.
    destruct (IH w0 Hw0) as [Hhead0 Hall0].
    destruct (IH w ltac:(left)) as [Hhead Hall].
    rewrite callSubmitFrom_spec.
    destruct (isBlank message) eqn:Hb; [by split|].
    cbn [store]. change (chatHistory (exec _ (store w)))
      with (chatHistory (store w0)
            ++ [{| role := user; text := message; sources := None |}]).
    split.
    + by destruct (chatHistory (store w0)).
    + apply Forall_app. split; [exact Hall0|]. apply Forall_singleton. by split.
Qed.

Lemma every_entry_can_be_read_witness :
  chatHistory
    (store (callSubmitFrom [greeting] (lit "second")
              (step (H := exampleParser) (CallSubmit (lit "first")) initialWorld)))
    = [greeting; {| role := user; text := lit "second"; sources := None |}]
  ∧ Forall readable
      (chatHistory
         (store (callSubmitFrom [greeting] (lit "second")
                   (step (H := exampleParser) (CallSubmit (lit "first"))
                      initialWorld)))).
Proof.
  split; [reflexivity|].
  assert (session (H := exampleParser)
            [callSubmitFrom (chatHistory (store initialWorld)) (lit "second")
               (step (H := exampleParser) (CallSubmit (lit "first")) initialWorld);
             step (H := exampleParser) (CallSubmit (lit "first")) initialWorld;
             initialWorld]) as Hsession.
  { apply (session_kept_call (H := exampleParser)).
    - apply (session_event (H := exampleParser)), session_initial.
    - right. left. }
  pose proof (every_entry_can_be_read (H := exampleParser) _ Hsession) as Hall.
  apply Forall_cons in Hall as [[_ Hreadable] _]. exact Hreadable.
Defined.

(** ** The analysis with a file, and what the summary says *)

(** X8. With a file selected the analysis always starts, whatever the skills
    text: no validation error, the loading flag raised, one timer of 2000 ms.
    Which file it is makes no difference, and with a text that is not blank
    neither does having one. When the timer of a blank text fires, the
    summary is the mock resume skills alone, with no text-box part. *)
Theorem analysis_with_a_file (skillsText : jsstring) (file : File) (st : State) :
  (handleSubmit skillsText (Some file) st).1
    = inr (Some {| delay := 2000; capturedSkillsText := skillsText |})
  ∧ error (handleSubmit skillsText (Some file) st).2 = None
  ∧ isLoading (handleSubmit skillsText (Some file) st).2 = true
  ∧ (∀ other, handleSubmit skillsText (Some other) st
              = handleSubmit skillsText (Some file) st)
  ∧ (isBlank skillsText = false ->
     handleSubmit skillsText None st = handleSubmit skillsText (Some file) st)
  ∧ (isBlank skillsText = true ->
     ∀ st2, skillsUsed (exec (handleSubmit_settled skillsText) st2)
            = MOCK_SKILLS_FROM_RESUME
            ∧ recommendations (exec (handleSubmit_settled skillsText) st2)
              = MOCK_RECOMMENDATIONS).
Proof.
  assert (∀ f : File,
            isBlank skillsText && negb (bool_decide (is_Some (Some f))) = false)
    as Hfile.
  { intros f. rewrite bool_decide_eq_true_2 by eauto. apply andb_false_r. }
  rewrite !(handleSubmit_valid skillsText (Some file) st (Hfile file)).
  split; [reflexivity|]. split; [reflexivity|]. split; [reflexivity|].
  split; [|split].
  - intros other.
    by rewrite (handleSubmit_valid skillsText (Some other) st (Hfile other)).
  - intros Hb. apply handleSubmit_valid. by rewrite Hb.
  - intros Hb st2. split; [|reflexivity].
    change (skillsUsed (exec (handleSubmit_settled skillsText) st2))
      with (combinedSkills skillsText).
    unfold combinedSkills. unfold isBlank in Hb.
    apply negb_true_iff in Hb. by rewrite Hb.
Qed.

Lemma analysis_with_a_file_witness :
  skillsUsed
    (store (run (H := exampleParser)
       [ChooseFile (Some {| name := lit "cv.pdf" |}); TypeSkills (lit "  ");
        SubmitForm; TimerFires 0] initialWorld))
  = MOCK_SKILLS_FROM_RESUME.
Proof.
  exact (proj1 (proj2 (proj2 (proj2 (proj2 (proj2
           (analysis_with_a_file (lit "  ") {| name := lit "cv.pdf" |} initialState)))))
           eq_refl _)).
Defined.

Lemma trimStart_split (s : jsstring) :
  ∃ before,
    s = before ++ trimStart s
    ∧ Forall (λ c, isWhiteSpace c = true) before
    ∧ ∀ c rest, trimStart s = c :: rest -> isWhiteSpace c = false.
Proof.
  induction s as [|x s (before & Hs & Hbefore & Hhead)].
  - exists []. repeat split; [constructor|discriminate].
  - simpl. destruct (isWhiteSpace x) eqn:Hx.
    + exists (x :: before). split; [by rewrite Hs at 1|].
      split; [by constructor|exact Hhead].
    + exists []. split; [reflexivity|]. split; [constructor|].
      intros c rest Heq. by injection Heq as <- _.
Qed.

Lemma trimEnd_split (s : jsstring) :
  ∃ after,
    s = trimEnd s ++ after
    ∧ Forall (λ c, isWhiteSpace c = true) after
    ∧ ∀ rest c, trimEnd s = rest ++ [c] -> isWhiteSpace c = false.
Proof.
  destruct (trimStart_split (reverse s)) as (before & Hs & Hbefore & Hhead).
  exists (reverse before). unfold trimEnd. split; [|split].
  - rewrite <- reverse_app, <- Hs. by rewrite reverse_involutive.
  - by apply Forall_reverse.
  - intros rest c Heq. apply (Hhead c (reverse rest)).
    apply (f_equal reverse) in Heq.
    by rewrite reverse_involutive, reverse_app in Heq.
Qed.

(** X9. For a skills text that is not blank, the summary shown after the
    analysis is the fixed frame around a core of the text: the text is that
    core between a run of white space before it and one after it, and the
    core starts and ends with a code unit that is not white space. *)
Theorem summary_holds_the_core_of_the_text (skillsText : jsstring) :
  Exists (λ c, isWhiteSpace c = false) skillsText ->
  ∃ before core after,
    skillsText = before ++ core ++ after
    ∧ Forall (λ c, isWhiteSpace c = true) before
    ∧ Forall (λ c, isWhiteSpace c = true) after
    ∧ (∃ c rest, core = c :: rest ∧ isWhiteSpace c = false)
    ∧ (∃ rest c, core = rest ++ [c] ∧ isWhiteSpace c = false)
    ∧ ∀ st, skillsUsed (exec (handleSubmit_settled skillsText) st) =
        lit "[From Textbox: " ++ core ++ lit "] + [From Resume: "
        ++ MOCK_SKILLS_FROM_RESUME ++ lit "]".
Proof.
  intros Hb. apply isBlank_false_iff in Hb.
  unfold isBlank in Hb. apply negb_false_iff in Hb.
  destruct (trimStart_split skillsText) as (before & Hs & Hbefore & Hhead).
  destruct (trimEnd_split (trimStart skillsText)) as (after & He & Hafter & Hlast).
  fold (trim skillsText) in He, Hlast.
  exists before, (trim skillsText), after.
  split; [by rewrite <- He|]. split; [exact Hbefore|]. split; [exact Hafter|].
  destruct (trim skillsText) as [|c core] eqn:Htrim; [discriminate|].
  split; [|split].
  - exists c, core. split; [reflexivity|].
    destruct (trimStart skillsText) as [|c' rest'] eqn:Hts; [discriminate|].
    injection He as Hc _. rewrite <- Hc. exact (Hhead _ _ eq_refl).
  - destruct (exists_last (l := c :: core)) as (rest & z & Hz); [discriminate|].
    exists rest, z. split; [exact Hz|]. by apply (Hlast rest z).
  - intros st.
    change (skillsUsed (exec (handleSubmit_settled skillsText) st))
      with (combinedSkills skillsText).
    unfold combinedSkills. by rewrite Htrim.
Qed.

Lemma summary_holds_the_core_of_the_text_witness :
  ∃ before core after,
    lit "  Python, SQL " = before ++ core ++ after
    ∧ Forall (λ c, isWhiteSpace c = true) before
    ∧ Forall (λ c, isWhiteSpace c = true) after
    ∧ skillsUsed (exec (handleSubmit_settled (lit "  Python, SQL ")) initialState) =
        lit "[From Textbox: " ++ core ++ lit "] + [From Resume: "
        ++ MOCK_SKILLS_FROM_RESUME ++ lit "]".
Proof.
  destruct (summary_holds_the_core_of_the_text (lit "  Python, SQL "))
    as (before & core & after & Hs & Hb & Ha & _ & _ & Hsummary).
  - right. right. left. reflexivity.
  - exists before, core, after. split; [exact Hs|]. split; [exact Hb|].
    split; [exact Ha|]. exact (Hsummary initialState).
Defined.

(** ** Selecting and removing a file *)

(** X10. On a page with no file selected, selecting a file and removing it
    again leaves the page exactly as it was. In between, the page shows the
    name of the file and offers the remove button; before and after it shows
    no file and does not offer the button. A change of the file input with
    no file in it clears the selection just as the remove button does. *)
Theorem select_then_remove_file `{UrlParser} (file : File) (w : World) :
  resumeFile (store w) = None ->
  step RemoveFile (step (ChooseFile (Some file)) w) = w
  ∧ fileName (store (step (ChooseFile (Some file)) w)) = name file
  ∧ fileCtaText (store (step (ChooseFile (Some file)) w)) = lit "File Selected"
  ∧ offered RemoveFile (step (ChooseFile (Some file)) w) = true
  ∧ fileName (store w) = lit "No file selected."
  ∧ offered RemoveFile w = false
  ∧ step (ChooseFile None) (step (ChooseFile (Some file)) w) = w.
Proof.
  intros Hnone. destruct w as [[] fs ts]. cbn in Hnone. subst.
  repeat split.
Qed.

Lemma select_then_remove_file_witness :
  step (H := exampleParser) RemoveFile
    (step (H := exampleParser) (ChooseFile (Some {| name := lit "cv.pdf" |}))
       initialWorld)
  = initialWorld.
Proof.
  exact (proj1 (select_then_remove_file (H := exampleParser)
                  {| name := lit "cv.pdf" |} initialWorld eq_refl)).
Defined.

(** ** Calls from a render that is not the current one *)

(** X11. The call writes the transcript of the render it closes over, not
    the one in the state: of two calls made from the same render, with
    messages that are not blank, only the entry of the second is in the
    transcript afterwards, while both requests went out. The settled
    handler, which appends to whatever the transcript is then, loses
    nothing. *)
Theorem calls_from_one_render_overwrite `{UrlParser} (history : list Message)
    (first second : jsstring) (st : State) :
  isBlank first = false ->
  isBlank second = false ->
  chatHistory
    (exec (sendMessageToGemini history second)
       (exec (sendMessageToGemini history first) st))
  = history ++ [{| role := user; text := second; sources := None |}]
  ∧ (sendMessageToGemini history first st).1
    = inr (Some (requestOf
             (history ++ [{| role := user; text := first; sources := None |}])))
  ∧ (sendMessageToGemini history second
       (exec (sendMessageToGemini history first) st)).1
    = inr (Some (requestOf
             (history ++ [{| role := user; text := second; sources := None |}])))
  ∧ ∀ o st', chatHistory (exec (sendMessageToGemini_settled o) st')
             = chatHistory st' ++ [replyTurn o].
Proof.
  intros Hfirst Hsecond. unfold exec.
  rewrite (sendMessageToGemini_nonblank history first st Hfirst).
  rewrite (sendMessageToGemini_nonblank history second _ Hsecond).
  repeat split. intros o st'. by rewrite sendMessageToGemini_settled_spec.
Qed.

Lemma calls_from_one_render_overwrite_witness :
  chatHistory
    (exec (sendMessageToGemini [greeting] (lit "second"))
       (exec (sendMessageToGemini [greeting] (lit "first")) initialState))
  = [greeting; {| role := user; text := lit "second"; sources := None |}].
Proof.
  exact (proj1 (calls_from_one_render_overwrite (H := exampleParser)
                  [greeting] (lit "first") (lit "second") initialState
                  eq_refl eq_refl)).
Defined.

(** ** What the two flags do not count *)

(** X12. Each flag is reset whenever one request or one timer settles,
    however many are left: with two or more outstanding, which only calls
    past the page's controls can bring about, the flag is false after the
    first settles although the others are still outstanding, and the page
    offers its controls again. *)
Theorem flags_do_not_count `{UrlParser} (w : World) (i : nat) :
  (∀ o, (i < length (fetches w))%nat ->
     isChatLoading (store (step (FetchSettles i o) w)) = false
     ∧ length (fetches (step (FetchSettles i o) w)) = (length (fetches w) - 1)%nat
     ∧ ∀ value, offered (TypeChat value) (step (FetchSettles i o) w)
                = isChatOpen (store w))
  ∧ ((i < length (timers w))%nat ->
     isLoading (store (step (TimerFires i) w)) = false
     ∧ length (timers (step (TimerFires i) w)) = (length (timers w) - 1)%nat
     ∧ offered SubmitForm (step (TimerFires i) w) = true).
Proof.
  split.
  - intros o Hi. apply lookup_lt_is_Some in Hi as [r Hr].
    rewrite step_FetchSettles, Hr. cbn [store fetches].
    rewrite answered_isChatLoading. split; [reflexivity|].
    split; [apply length_delete; eauto|].
    intros value. cbn. apply andb_true_r.
  - intros Hi. apply lookup_lt_is_Some in Hi as [t Ht].
    rewrite step_TimerFires, Ht. cbn [store timers].
    split; [reflexivity|]. split; [apply length_delete; eauto|reflexivity].
Qed.

Lemma flags_do_not_count_witness :
  let w := run (H := exampleParser)
             [CallSubmit (lit "first"); CallSubmit (lit "second");
              FetchSettles 0 NetworkFailure] initialWorld in
  isChatLoading (store w) = false ∧ length (fetches w) = 1%nat.
Proof.
  destruct (proj1 (flags_do_not_count (H := exampleParser)
              (run (H := exampleParser)
                 [CallSubmit (lit "first"); CallSubmit (lit "second")] initialWorld)
              0) NetworkFailure) as (Hflag & Hcount & _).
  - change (0 < 2)%nat. lia.
  - split; [exact Hflag|exact Hcount].
Defined.

(** ** What goes out to the API *)

Lemma step_wellFormedRequest `{UrlParser} (e : Event) (w : World) :
  head (chatHistory (store w)) = Some greeting ->
  Forall wellFormedRequest (fetches w) ->
  Forall wellFormedRequest (fetches (step e w)).
Proof.
  intros Hhead Hall.
  assert (∀ message, Forall wellFormedRequest (fetches (callSubmit message w)))
    as Hcall.
  { intros message. rewrite callSubmit_spec.
    destruct (isBlank message) eqn:Hb; [exact Hall|].
    cbn [fetches]. apply Forall_app. split; [exact Hall|].
    apply Forall_singleton. repeat split.
    destruct (chatHistory (store w)) as [|m history]; [discriminate|].
    injection Hhead as ->.
    exists ((λ msg, {| item_role := role msg; item_parts := [text msg] |})
              <$> history), message.
    split; [|exact Hb]. cbn. by rewrite fmap_app. }
  destruct e; cbn [step]; try exact Hall; try apply Hcall.
  - by rewrite (proj2 (proj2 (callAnalyze_chat w))).
  - by destruct (timers w !! i).
  - destruct (fetches w !! i); [|exact Hall]. cbn [fetches].
    by apply Forall_delete.
Qed.

(** X13. Whatever happens to the page from its initial state on, through
    its controls or not, every request still in flight is a POST to the API
    with the search tool and the fixed system instruction, and its contents
    start with the greeting, as an entry of the model, and end with an
    entry of the user whose text is not blank. *)
Theorem requests_start_with_the_greeting `{UrlParser} (es : list Event) :
  Forall wellFormedRequest (fetches (run es initialWorld)).
Proof.
  assert (∀ w, head (chatHistory (store w)) = Some greeting ->
               Forall wellFormedRequest (fetches w) ->
               Forall wellFormedRequest (fetches (run es w))) as Hrun.
  { induction es as [|e es IH]; intros w Hhead Hall; [exact Hall|].
    change (run (e :: es) w) with (run es (step e w)).
    apply IH; [|by apply step_wellFormedRequest].
    destruct (step_prefix e w) as [rest ->].
    by destruct (chatHistory (store w)). }
  apply Hrun; [reflexivity|constructor].
Qed.
